(** * FinRisk-Lab: the risk-analytics pipeline, embedded and verified

    The development follows the Python sources module by module:
    [metrics/returns.py], [metrics/drawdown.py], [metrics/sharpe.py],
    [metrics/volatility.py], [metrics/beta.py],
    [portfolio/portfolio_engine.py] and [risk_models/stress_engine.py].

    Numbers.  The pipeline computes on IEEE binary64 numbers through pandas
    and numpy.  Except in [Module Binary64] the arithmetic is idealised: a
    cell is either a real number or [None].  In the input of a function
    [None] is pandas' missing value NaN; in a result it stands for any value
    that is not a finite number (NaN, or an infinity as a division by zero or
    the logarithm of zero produce).  Operations propagate [None], a division
    by zero and a logarithm of a non-positive number yield [None],
    comparisons with [None] are false, and the pandas reductions skip [None]
    as they skip NaN.  [Module Binary64] instantiates the one function whose
    specified scenario depends on rounding with Rocq's primitive binary64
    floats.

    What the idealisation leaves out.  The entries of a dict (weights,
    betas, volatilities) are finite numbers and sums are exact: a NaN weight,
    which passes every comparison of [validate_weights], and the effect of
    the order of summation at the edge of the tolerance are outside the
    model.  A [None] that stands for an infinity is skipped by the
    reductions where pandas would keep the infinity; it arises only from a
    price or value that is not positive, which the theorems exclude by
    hypothesis.  Equalities and closed forms are read up to rounding; bounds
    that rounding can reach are stated as non-strict.

    Containers.  A Python [dict] is an association list in insertion order, a
    label-indexed [pd.Series] is an association list from labels to cells, a
    date-indexed series is the list of its cells in date order, and a
    [pd.DataFrame] is its list of column labels together with its rows.
    Labels inside one index are distinct (asset identifiers, dict keys).

    Exceptions.  Every [raise ValueError(...)] of the sources is an [error]
    constructor named after the error kind of the specification, and every
    Python function is a function into [result]. *)

From Stdlib Require Import Floats.
From Stdlib Require Import String Ascii.
From Stdlib Require Import Reals Lra Lia Bool Arith List.
From Stdlib Require Import Permutation Sorting.Sorted Sorting.Mergesort Orders.
Import ListNotations.

Set Warnings "-inexact-float".
Local Open Scope R_scope.

(* ===================================================================== *)
(** * Exceptions *)
(* ===================================================================== *)

Inductive error : Type :=
| EmptyInputError       (* "Price data is empty after cleaning." *)
| UndefinedRatioError   (* "Sharpe ratio undefined when volatility is zero or negative." *)
| WeightMismatchError   (* "Portfolio weights must match asset universe exactly." *)
| WeightSumError        (* "Portfolio weights must sum to 1. Current sum = ..." *)
| NegativeWeightError   (* "Portfolio weights cannot be negative." *)
| InvalidShockError     (* "Shock must be between -100% and 0%." *)
| ShapeError.           (* numpy: "shapes ... not aligned" *)

Inductive result (A : Type) : Type :=
| Ok (a : A)
| Raise (e : error).

Arguments Ok {A} a.
Arguments Raise {A} e.

Definition bind {A B : Type} (c : result A) (k : A -> result B) : result B :=
  match c with
  | Ok a => k a
  | Raise e => Raise e
  end.

Declare Scope result_scope.
Delimit Scope result_scope with result.
Notation "x <- c ;; k" := (bind c (fun x => k))
  (at level 61, c at next level, right associativity) : result_scope.
Notation "c ;; k" := (bind c (fun _ => k))
  (at level 61, right associativity) : result_scope.
Local Open Scope result_scope.

(* ===================================================================== *)
(** * Cells and their arithmetic *)
(* ===================================================================== *)

Definition label := string.
Definition value := option R.

Definition Rle_b (x y : R) : bool := if Rle_dec x y then true else false.
Definition Rlt_b (x y : R) : bool := if Rlt_dec x y then true else false.
Definition Rgt_b (x y : R) : bool := Rlt_b y x.

Definition vlift2 (op : R -> R -> R) (a b : value) : value :=
  match a, b with
  | Some x, Some y => Some (op x y)
  | _, _ => None
  end.

Definition vadd : value -> value -> value := vlift2 Rplus.
Definition vsub : value -> value -> value := vlift2 Rminus.
Definition vmul : value -> value -> value := vlift2 Rmult.

Definition vdiv (a b : value) : value :=
  match a, b with
  | Some x, Some y => if Req_dec_T y 0 then None else Some (x / y)
  | _, _ => None
  end.

(** [np.sqrt]: NaN on a negative argument. *)
Definition vsqrt (a : value) : value :=
  match a with
  | Some x => if Rlt_dec x 0 then None else Some (sqrt x)
  | None => None
  end.

(** [np.log]: [-inf] at zero and NaN below it. *)
Definition vlog (a : value) : value :=
  match a with
  | Some x => if Rlt_dec 0 x then Some (ln x) else None
  | None => None
  end.

(** [a <= b] on cells: false as soon as one side is not a number. *)
Definition vleb (a b : value) : bool :=
  match a, b with
  | Some x, Some y => Rle_b x y
  | _, _ => false
  end.

(** [.clip(lo, hi)]: NaN stays NaN. *)
Definition vclip (lo hi : R) (a : value) : value :=
  match a with
  | Some x => Some (Rmin (Rmax x lo) hi)
  | None => None
  end.

(* ===================================================================== *)
(** * Lists, vectors and matrices (the numpy fragment) *)
(* ===================================================================== *)

Fixpoint map2 {A B C : Type} (f : A -> B -> C) (l1 : list A) (l2 : list B)
  : list C :=
  match l1, l2 with
  | a :: l1', b :: l2' => f a b :: map2 f l1' l2'
  | _, _ => []
  end.

Definition sumR (l : list R) : R := fold_right Rplus 0 l.

(** Python's builtin [sum]: a left fold starting from 0. *)
Definition py_sum (l : list R) : R := fold_left Rplus l 0.

Definition vector := list value.
Definition matrix := list (list value).

(** Inner product of two arrays of one length; NaN propagates. *)
Definition vdot (u v : vector) : value :=
  fold_right vadd (Some 0) (map2 vmul u v).

(** [np.dot(u, v)] on two 1-D arrays. *)
Definition np_dot_vv (u v : vector) : result value :=
  if Nat.eqb (length u) (length v) then Ok (vdot u v) else Raise ShapeError.

(** [np.dot(M, v)] on a 2-D and a 1-D array. *)
Definition np_dot_mv (M : matrix) (v : vector) : result vector :=
  if forallb (fun row => Nat.eqb (length row) (length v)) M
  then Ok (map (fun row => vdot row v) M)
  else Raise ShapeError.

Definition mat_ncols (M : matrix) : nat := length (hd [] M).

Definition mat_col (M : matrix) (j : nat) : vector :=
  map (fun row => nth j row None) M.

(** [A @ B] on two 2-D arrays. *)
Definition matmul (A B : matrix) : result matrix :=
  if forallb (fun row => Nat.eqb (length row) (length B)) A
  then Ok (map (fun row =>
                  map (fun j => vdot row (mat_col B j)) (seq 0 (mat_ncols B)))
               A)
  else Raise ShapeError.

(** [np.diag(v)] on a 1-D array. *)
Definition np_diag (v : vector) : matrix :=
  map (fun i =>
         map (fun j => if Nat.eqb i j then nth i v None else Some 0)
             (seq 0 (length v)))
      (seq 0 (length v)).

(* ===================================================================== *)
(** * Series, dicts and data frames (the pandas fragment) *)
(* ===================================================================== *)

Definition dict := list (label * R).
Definition Series := list (label * value).
Definition TimeSeries := list value.

Record DataFrame : Type := mkDataFrame {
  columns : list label;
  rows : list (list value)
}.

(** [df.empty]: some axis has length zero. *)
Definition df_empty (df : DataFrame) : bool :=
  Nat.eqb (length (rows df)) 0 || Nat.eqb (length (columns df)) 0.

Definition df_column (df : DataFrame) (j : nat) : TimeSeries :=
  map (fun row => nth j row None) (rows df).

(** The cell at row [t] (a date) and column [j] (an asset). *)
Definition df_cell (df : DataFrame) (t j : nat) : value :=
  nth j (nth t (rows df) []) None.

Definition keys {V : Type} (d : list (label * V)) : list label := map fst d.
Definition values {V : Type} (d : list (label * V)) : list V := map snd d.

Fixpoint lookup {V : Type} (a : label) (d : list (label * V)) : option V :=
  match d with
  | [] => None
  | (b, v) :: d' => if String.eqb a b then Some v else lookup a d'
  end.

(** [pd.Series(weights)] *)
Definition Series_of_dict (d : dict) : Series :=
  map (fun kv => (fst kv, Some (snd kv))) d.

(** [set(l1) == set(l2)] *)
Definition mem (a : label) (l : list label) : bool := existsb (String.eqb a) l.
Definition set_eqb (l1 l2 : list label) : bool :=
  forallb (fun a => mem a l2) l1 && forallb (fun a => mem a l1) l2.

Fixpoint list_eqb (l1 l2 : list label) : bool :=
  match l1, l2 with
  | [], [] => true
  | a :: l1', b :: l2' => String.eqb a b && list_eqb l1' l2'
  | _, _ => false
  end.

Module LabelOrder <: TotalLeBool.
Definition t := label.
Definition leb := String.leb.
Definition leb_total : forall x y, leb x y = true \/ leb y x = true :=
  String.leb_total.
End LabelOrder.

Module LabelSort := Sort LabelOrder.

(** Index alignment of a binary operation on two label-indexed series: the
    common index when both are the same, their sorted union otherwise. *)
Definition align_index (i1 i2 : list label) : list label :=
  if list_eqb i1 i2 then i1
  else LabelSort.sort (nodup string_dec (i1 ++ i2)).

(** A cell of an aligned operand: NaN where the label is missing. *)
Definition cell_at (a : label) (s : Series) : value :=
  match lookup a s with
  | Some v => v
  | None => None
  end.

Definition series_binop (op : value -> value -> value) (s1 s2 : Series)
  : Series :=
  map (fun a => (a, op (cell_at a s1) (cell_at a s2)))
      (align_index (keys s1) (keys s2)).

(** Reductions with [skipna=True], the pandas default. *)
Definition sum_skipna (l : list value) : R :=
  fold_right (fun v acc => match v with Some x => x + acc | None => acc end)
             0 l.

Definition prod_skipna (l : list value) : R :=
  fold_right (fun v acc => match v with Some x => x * acc | None => acc end)
             1 l.

Definition count_valid (l : list value) : nat :=
  length (filter (fun v => match v with Some _ => true | None => false end) l).

Definition mean_skipna (l : list value) : value :=
  if Nat.eqb (count_valid l) 0 then None
  else Some (sum_skipna l / INR (count_valid l)).

Fixpoint min_skipna_from (m : option R) (l : list value) : option R :=
  match l with
  | [] => m
  | None :: l' => min_skipna_from m l'
  | Some x :: l' =>
      min_skipna_from (Some (match m with
                             | Some y => Rmin y x
                             | None => x
                             end)) l'
  end.

(** [s.min()]: NaN on a series without a valid cell. *)
Definition min_skipna (l : list value) : value := min_skipna_from None l.

(** [s.cummax()]: the running maximum of the valid cells seen so far; a NaN
    cell stays NaN and does not change the running maximum. *)
Fixpoint cummax_from (m : option R) (l : list value) : list value :=
  match l with
  | [] => []
  | None :: l' => None :: cummax_from m l'
  | Some x :: l' =>
      let m' := match m with
                | Some y => Rmax y x
                | None => x
                end in
      Some m' :: cummax_from (Some m') l'
  end.

Definition cummax (l : list value) : list value := cummax_from None l.

(** [s.cumprod()] *)
Fixpoint cumprod_from (p : R) (l : list value) : list value :=
  match l with
  | [] => []
  | None :: l' => None :: cumprod_from p l'
  | Some x :: l' => Some (p * x) :: cumprod_from (p * x) l'
  end.

Definition cumprod (l : list value) : list value := cumprod_from 1 l.

(** [df.diff()] and [df.pct_change()]: the first row has no predecessor.
    Cleaned prices hold no missing value, so the filling of gaps that
    [pct_change] may do beforehand has nothing to fill. *)
Definition nan_row (r : list value) : list value := map (fun _ => None) r.

Definition rows_diff (rs : list (list value)) : list (list value) :=
  match rs with
  | [] => []
  | r0 :: rest => nan_row r0 :: map2 (map2 vsub) rest rs
  end.

Definition rows_pct_change (rs : list (list value)) : list (list value) :=
  match rs with
  | [] => []
  | r0 :: rest =>
      nan_row r0
      :: map2 (map2 (fun p q => vsub (vdiv p q) (Some 1))) rest rs
  end.

(** [df.mean()]: one mean per column. *)
Definition df_mean (df : DataFrame) : Series :=
  map (fun j => (nth j (columns df) EmptyString,
                 mean_skipna (df_column df j)))
      (seq 0 (length (columns df))).

(** [df.cov()]: pairwise covariance over the rows where both columns hold a
    number, normalised by the number of those rows minus one. *)
Fixpoint complete_pairs (xs ys : list value) : list (R * R) :=
  match xs, ys with
  | Some x :: xs', Some y :: ys' => (x, y) :: complete_pairs xs' ys'
  | _ :: xs', _ :: ys' => complete_pairs xs' ys'
  | _, _ => []
  end.

Definition cov_pair (xs ys : list value) : value :=
  let ps := complete_pairs xs ys in
  let n := length ps in
  if Nat.leb n 1 then None
  else
    let mx := sumR (map fst ps) / INR n in
    let my := sumR (map snd ps) / INR n in
    Some (sumR (map (fun p => (fst p - mx) * (snd p - my)) ps) / (INR n - 1)).

Definition df_cov (df : DataFrame) : matrix :=
  map (fun i =>
         map (fun j => cov_pair (df_column df i) (df_column df j))
             (seq 0 (length (columns df))))
      (seq 0 (length (columns df))).

(* ===================================================================== *)
(** * metrics/returns.py *)
(* ===================================================================== *)

Definition daily_returns (prices_df : DataFrame) : result DataFrame :=
  if df_empty prices_df then Raise EmptyInputError
  else Ok (mkDataFrame (columns prices_df)
                       (rows_pct_change (rows prices_df))).

Definition daily_log_returns (prices_df : DataFrame) : result DataFrame :=
  Ok (mkDataFrame (columns prices_df)
                  (rows_diff (map (map vlog) (rows prices_df)))).

(* ===================================================================== *)
(** * metrics/drawdown.py *)
(* ===================================================================== *)

(** The function on one value series; a price table goes through it column
    by column. *)
Definition calculate_drawdown (cleaned_prices : TimeSeries)
  : result (TimeSeries * value) :=
  let running_max := cummax cleaned_prices in
  let drawdown :=
    map2 vdiv (map2 vsub cleaned_prices running_max) running_max in
  let max_drawdown := min_skipna drawdown in
  Ok (drawdown, max_drawdown).

(* ===================================================================== *)
(** * metrics/sharpe.py *)
(* ===================================================================== *)

Section Sharpe.

(** [config.settings.TRADING_DAYS_PER_YEAR]; the settings module is not
    part of the sources. *)
Variable TRADING_DAYS_PER_YEAR : R.

Definition calculate_sharpe (daily_returns : DataFrame) (annual_vol : Series)
  : result Series :=
  if existsb (fun v => vleb v (Some 0)) (values annual_vol)
  then Raise UndefinedRatioError
  else
    let scaled_mean :=
      map (fun kv => (fst kv, vmul (snd kv) (Some TRADING_DAYS_PER_YEAR)))
          (df_mean daily_returns) in
    Ok (series_binop vdiv scaled_mean annual_vol).

End Sharpe.

(* ===================================================================== *)
(** * portfolio/portfolio_engine.py *)
(* ===================================================================== *)

Definition validate_weights (weights : dict) (assets : list label)
  : result unit :=
  if negb (set_eqb (keys weights) assets) then Raise WeightMismatchError
  else
    let total_weight := py_sum (values weights) in
    if Rgt_b (Rabs (total_weight - 1)) 1e-6 then Raise WeightSumError
    else if existsb (fun w => Rlt_b w 0) (values weights)
         then Raise NegativeWeightError
         else Ok tt.

(** [asset_returns * weights] turns the dict into a series over the columns
    of the frame (which must be as many as the dict has entries) and
    multiplies row by row. *)
Definition calculate_portfolio_returns (asset_returns : DataFrame)
  (weights : dict) : result TimeSeries :=
  validate_weights weights (columns asset_returns) ;;
  if Nat.eqb (length (columns asset_returns)) (length weights)
  then
    let w := map (fun c => cell_at c (Series_of_dict weights))
                 (columns asset_returns) in
    Ok (map (fun row => Some (sum_skipna (map2 vmul row w)))
            (rows asset_returns))
  else Raise ShapeError.

Definition calculate_portfolio_annual_return (portfolio_daily_ret : TimeSeries)
  : result R :=
  Ok (prod_skipna (map (vadd (Some 1)) portfolio_daily_ret) - 1).

Definition calculate_daily_portfolio_volatility (log_returns : DataFrame)
  (weights : dict) : result value :=
  validate_weights weights (columns log_returns) ;;
  let cov_matrix := df_cov log_returns in
  let weights_matrix := values (Series_of_dict weights) in
  inner <- np_dot_mv cov_matrix weights_matrix ;;
  q <- np_dot_vv weights_matrix inner ;;
  Ok (vsqrt q).


Definition calculate_diversification_benefit (asset_vols : Series)
  (weights : dict) (portfolio_vol : value) : result value :=
  validate_weights weights (keys asset_vols) ;;
  if Nat.eqb (length weights) 1 then Ok (Some 0)
  else
    let naive_vol :=
      sum_skipna (values (series_binop vmul asset_vols
                                       (Series_of_dict weights))) in
    Ok (vsub (Some naive_vol) portfolio_vol).

(** [pd.Series(weights) * MRC] multiplies a series by an array position by
    position, which needs both of one length. *)
Definition calculate_asset_risk_contribution (weights : dict)
  (log_returns : DataFrame) (portfolio_vol : value) : result Series :=
  validate_weights weights (columns log_returns) ;;
  let cov_matrix := df_cov log_returns in
  inner <- np_dot_mv cov_matrix (values (Series_of_dict weights)) ;;
  let MRC := map (fun x => vdiv x portfolio_vol) inner in
  if Nat.eqb (length weights) (length MRC)
  then Ok (combine (keys weights)
                   (map2 vmul (values (Series_of_dict weights)) MRC))
  else Raise ShapeError.

Definition calculate_portfolio_value_series (portfolio_daily_ret : TimeSeries)
  : result TimeSeries :=
  let initial_value := Some 1 in
  Ok (cumprod (map (vadd initial_value) portfolio_daily_ret)).

(* ===================================================================== *)
(** * risk_models/stress_engine.py *)
(* ===================================================================== *)

(** The shock guard and the propagation are written once over the number
    type, to be read over the idealised cells and over binary64. *)
Section StressedReturns.

Variable num : Type.
Variable num_mul : num -> num -> num.
Variable num_leb : num -> num -> bool.
Variables minus_one zero : num.

Definition stressed_assets_returns_on (betas : list (label * num))
  (shock_amt : num) : result (list (label * num)) :=
  if negb (num_leb minus_one shock_amt && num_leb shock_amt zero)
  then Raise InvalidShockError
  else
    let asset_stress_return :=
      map (fun kv => (fst kv, num_mul (snd kv) shock_amt)) betas in
    Ok asset_stress_return.

End StressedReturns.

Definition calculate_stressed_assets_returns (betas : Series)
  (shock_amt : value) : result Series :=
  stressed_assets_returns_on value vmul vleb (Some (-1)) (Some 0)
                             betas shock_amt.

Definition calculate_portfolio_loss (weights : dict)
  (asset_stress_returns : Series) : result R :=
  let shocked_portfolio_ret :=
    sum_skipna (values (series_binop vmul (Series_of_dict weights)
                                     asset_stress_returns)) in
  Ok shocked_portfolio_ret.

Definition calculate_concentration_stress_loss (weights : dict)
  (stress_amt : value) : result (list (label * R)) :=
  if negb (vleb (Some (-1)) stress_amt && vleb stress_amt (Some 0))
  then Raise InvalidShockError
  else
    let portfolio_weights := Series_of_dict weights in
    Ok (map (fun asset =>
               let zero_ret_series :=
                 map (fun b => (b, if String.eqb b asset
                                   then stress_amt else Some 0))
                     (keys portfolio_weights) in
               (asset,
                sum_skipna (values (series_binop vmul portfolio_weights
                                                 zero_ret_series))))
            (keys portfolio_weights)).

Definition calculate_correlation_breakdown_volatility (corr_matrix : DataFrame)
  (asset_vols : Series) (weights : dict) : result value :=
  let stressed_corr_matrix :=
    map (map (fun c => vclip (-1) 1 (vmul c (Some 1.5))))
        (rows corr_matrix) in
  let D := np_diag (values asset_vols) in
  DC <- matmul D stressed_corr_matrix ;;
  stressed_cov_matrix <- matmul DC D ;;
  let weights_matrix := values (Series_of_dict weights) in
  inner <- np_dot_mv stressed_cov_matrix weights_matrix ;;
  q <- np_dot_vv weights_matrix inner ;;
  Ok (vsqrt q).

Definition calculate_annual_correlation_breakdown_volatility
  (daily_breakdown_portfolio_vol : value) : result value :=
  Ok (vmul daily_breakdown_portfolio_vol (Some (sqrt 252))).

(** The stressed returns on IEEE binary64, the number type of the Python
    run. *)
Module Binary64.

Definition calculate_stressed_assets_returns
  (betas : list (label * float)) (shock_amt : float)
  : result (list (label * float)) :=
  stressed_assets_returns_on float PrimFloat.mul PrimFloat.leb
                             (-1)%float 0%float betas shock_amt.

End Binary64.

(* ===================================================================== *)
(** * metrics/volatility.py *)
(* ===================================================================== *)

(** [s.var()]: the sample variance of the valid cells, NaN with fewer than
    two of them. *)
Definition var_skipna (xs : list value) : value :=
  let n := count_valid xs in
  if Nat.leb n 1 then None
  else
    let m := sum_skipna xs / INR n in
    Some (sum_skipna
            (map (fun c => match c with
                           | Some x => Some ((x - m) * (x - m))
                           | None => None
                           end) xs)
          / (INR n - 1)).

(** [df.std()]: one standard deviation per column. *)
Definition df_std (df : DataFrame) : Series :=
  map (fun j => (nth j (columns df) EmptyString,
                 vsqrt (var_skipna (df_column df j))))
      (seq 0 (length (columns df))).

Section Volatility.

(** [config.settings.ROLLING_VOL_WINDOW] and
    [config.settings.TRADING_DAYS_PER_YEAR]. *)
Variable ROLLING_VOL_WINDOW : nat.
Variable TRADING_DAYS_PER_YEAR : R.

(** [None] is the [ValueError] "Not enough data for rolling volatility". *)
Definition calculate_daily_volatility (log_returns_df : DataFrame)
  : option Series :=
  if Nat.ltb (length (rows log_returns_df)) ROLLING_VOL_WINDOW then None
  else
    let daily_std := df_std log_returns_df in
    Some daily_std.

Definition calculate_annual_volatility (daily_vol : Series) : Series :=
  let annual_vol :=
    map (fun kv => (fst kv, vmul (snd kv) (Some (sqrt TRADING_DAYS_PER_YEAR))))
        daily_vol in
  annual_vol.

End Volatility.

(* ===================================================================== *)
(** * metrics/beta.py *)
(* ===================================================================== *)

(** The returns handed to [calculate_beta] are joined on their dates, so
    here a frame keeps the date of each row (a day number). *)
Record DatedFrame : Type := mkDatedFrame {
  d_columns : list label;
  d_rows : list (nat * list value)
}.

Fixpoint lookup_date (d : nat) (rs : list (nat * list value))
  : option (list value) :=
  match rs with
  | [] => None
  | (d', r) :: rs' => if Nat.eqb d d' then Some r else lookup_date d rs'
  end.

(** [pd.concat([l, r], axis=1, join="inner")]: the rows of the dates that
    both frames hold, side by side.  Each frame holds a date once. *)
Definition concat_inner (l r : DatedFrame) : DatedFrame :=
  mkDatedFrame
    (d_columns l ++ d_columns r)
    (flat_map (fun row => match lookup_date (fst row) (d_rows r) with
                          | Some rr => [(fst row, snd row ++ rr)]
                          | None => []
                          end)
              (d_rows l)).

Definition row_complete (r : list value) : bool :=
  forallb (fun c => match c with Some _ => true | None => false end) r.

(** [df.dropna()]: the rows without a missing value. *)
Definition dropna (df : DatedFrame) : DatedFrame :=
  mkDatedFrame (d_columns df)
               (filter (fun row => row_complete (snd row)) (d_rows df)).

Definition dated_column (df : DatedFrame) (j : nat) : list value :=
  map (fun row => nth j (snd row) None) (d_rows df).

(** [None] is the [IndexError] of [aligned.iloc[:, -1]] on a frame without
    columns.  The dict [betas] is filled in the order of the asset columns,
    whose labels are distinct. *)
Definition calculate_beta (stock_returns market_returns : DatedFrame)
  : option Series :=
  let aligned := dropna (concat_inner stock_returns market_returns) in
  match length (d_columns aligned) with
  | O => None
  | S k =>
      let market := dated_column aligned k in
      let betas :=
        map (fun j => (nth j (d_columns aligned) EmptyString,
                       vdiv (cov_pair (dated_column aligned j) market)
                            (var_skipna market)))
            (seq 0 k) in
      Some betas
  end.

(* ===================================================================== *)
(** * Specification vocabulary *)
(* ===================================================================== *)

(** The three conditions of a valid weight vector, in the words of the data
    model: keys equal to the asset universe as sets, values summing to 1
    within [1e-6], no negative entry. *)
Definition same_labels (l1 l2 : list label) : Prop :=
  forall a, In a l1 <-> In a l2.

Definition weight_sum_ok (weights : dict) : Prop :=
  Rabs (sumR (values weights) - 1) <= 1e-6.

Definition has_negative_weight (weights : dict) : Prop :=
  exists x, In x (values weights) /\ x < 0.

Definition valid_weights (weights : dict) (assets : list label) : Prop :=
  same_labels (keys weights) assets /\
  weight_sum_ok weights /\
  ~ has_negative_weight weights.

(** A weight vector that breaks one of the three conditions. *)
Definition invalid_weights (weights : dict) (assets : list label) : Prop :=
  ~ same_labels (keys weights) assets \/
  ~ weight_sum_ok weights \/
  has_negative_weight weights.

(** A cell-valued container all of whose cells are numbers. *)
Definition numbers (l : list R) : list value := map Some l.

(** The running peak of a value series at date [t]: the largest of the
    values up to and including that date. *)
Definition is_running_max (vs : list R) (t : nat) (m : R) : Prop :=
  In m (firstn (S t) vs) /\ Forall (fun x => x <= m) (firstn (S t) vs).

(** The least entry of a series. *)
Definition is_series_min (l : list R) (d : R) : Prop :=
  In d l /\ Forall (fun x => d <= x) l.

(** The running maximum on plain reals, started at [m]. *)
Fixpoint cummaxR (m : R) (l : list R) : list R :=
  match l with
  | [] => []
  | x :: l' => Rmax m x :: cummaxR (Rmax m x) l'
  end.

(** Log returns of an asset whose price does not move, held alone. *)
Definition flat_log_returns : DataFrame :=
  mkDataFrame ["A"%string] [[None]; [Some 0]; [Some 0]].

(** Log returns of one asset moving up and down by one unit. *)
Definition moving_log_returns : DataFrame :=
  mkDataFrame ["A"%string] [[None]; [Some 1]; [Some (-1)]].



(** Linear algebra on plain reals, the reading of the numpy operations on
    arrays without NaN. *)
Definition dotR (u v : list R) : R := sumR (map2 Rmult u v).

Definition matvecR (M : list (list R)) (v : list R) : list R :=
  map (fun row => dotR row v) M.

(** The quadratic form [w' M w]. *)
Definition quad_formR (M : list (list R)) (w : list R) : R :=
  dotR w (matvecR M w).

Definition colR (M : list (list R)) (j : nat) : list R :=
  map (fun row => nth j row 0) M.

Definition matmulR (A B : list (list R)) : list (list R) :=
  map (fun row => map (fun j => dotR row (colR B j))
                      (seq 0 (length (hd [] B))))
      A.

Definition diagR (sigma : list R) : list (list R) :=
  map (fun i =>
         map (fun j => if Nat.eqb i j then nth i sigma 0 else 0)
             (seq 0 (length sigma)))
      (seq 0 (length sigma)).

(** The entry of a dict of numbers at a label, 0 where the label is absent. *)
Definition dict_get (a : label) (d : dict) : R :=
  match lookup a d with
  | Some x => x
  | None => 0
  end.

(** The weighted sum of the individual asset volatilities. *)
Definition weighted_vol (asset_vols weights : dict) : R :=
  sumR (map (fun a => dict_get a asset_vols * dict_get a weights)
            (keys asset_vols)).

(** An [n] by [n] array. *)
Definition square (n : nat) (M : list (list R)) : Prop :=
  length M = n /\ Forall (fun row => length row = n) M.

(** One entry of the stressed correlation matrix: scaled by 1.5 and clipped
    to [-1, 1]. *)
Definition stress_corr (c : R) : R := Rmin (Rmax (c * 1.5) (-1)) 1.

(** [D . C . D] for the diagonal matrix [D] of [sigma]: entry [(i, j)] is
    [sigma_i * C_ij * sigma_j]. *)
Definition scaled_covR (sigma : list R) (C : list (list R))
  : list (list R) :=
  map2 (fun si row => map2 (fun c sj => si * c * sj) row sigma) sigma C.

(** Products and running products on plain reals. *)
Definition prodR (l : list R) : R := fold_right Rmult 1 l.

Fixpoint cumprodR (p : R) (l : list R) : list R :=
  match l with
  | [] => []
  | x :: l' => p * x :: cumprodR (p * x) l'
  end.

(** The drawdown series of a series of positive numbers. *)
Definition drawdownR (vs : list R) : list R :=
  match vs with
  | [] => []
  | v0 :: _ => map2 (fun v M => (v - M) / M) vs (cummaxR v0 vs)
  end.

(** The beta of a portfolio: the weighted sum of the betas of its assets. *)
Definition portfolio_beta (weights betas : dict) : R :=
  sumR (map (fun a => dict_get a weights * dict_get a betas) (keys weights)).

(** The numbers among the cells of a series. *)
Fixpoint valid_cells (xs : list value) : list R :=
  match xs with
  | [] => []
  | Some x :: xs' => x :: valid_cells xs'
  | None :: xs' => valid_cells xs'
  end.

(* ===================================================================== *)
(** * Basic facts: comparisons, sums, label sets *)
(* ===================================================================== *)

Lemma Rle_b_true (x y : R) : Rle_b x y = true <-> x <= y.
Proof.
  unfold Rle_b. destruct (Rle_dec x y); split; intros; auto; try discriminate;
    try contradiction.
Qed.

Lemma Rle_b_false (x y : R) : Rle_b x y = false <-> y < x.
Proof.
  unfold Rle_b. destruct (Rle_dec x y); split; intros; auto; try discriminate;
    try lra.
Qed.

Lemma Rlt_b_true (x y : R) : Rlt_b x y = true <-> x < y.
Proof.
  unfold Rlt_b. destruct (Rlt_dec x y); split; intros; auto; try discriminate;
    try contradiction.
Qed.

Lemma Rlt_b_false (x y : R) : Rlt_b x y = false <-> y <= x.
Proof.
  unfold Rlt_b. destruct (Rlt_dec x y); split; intros; auto; try discriminate;
    try lra.
Qed.

Lemma fold_left_Rplus_acc (l : list R) (a : R) :
  fold_left Rplus l a = a + sumR l.
Proof.
  revert a. induction l as [|x l IH]; intros a; simpl.
  - lra.
  - rewrite IH. unfold sumR. lra.
Qed.

Lemma py_sum_sumR (l : list R) : py_sum l = sumR l.
Proof. unfold py_sum. rewrite fold_left_Rplus_acc. lra. Qed.

Lemma Rmax_cases (a b : R) : Rmax a b = a \/ Rmax a b = b.
Proof. apply Rmax_case; [left | right]; reflexivity. Qed.

Lemma Rmin_cases (a b : R) : Rmin a b = a \/ Rmin a b = b.
Proof. apply Rmin_case; [left | right]; reflexivity. Qed.

Lemma mem_In (a : label) (l : list label) : mem a l = true <-> In a l.
Proof.
  unfold mem. rewrite existsb_exists. split.
  - intros [x [Hin Heq]]. apply String.eqb_eq in Heq. subst. exact Hin.
  - intros Hin. exists a. split; [exact Hin | apply String.eqb_refl].
Qed.

Lemma set_eqb_true (l1 l2 : list label) :
  set_eqb l1 l2 = true <-> same_labels l1 l2.
Proof.
  unfold set_eqb, same_labels. rewrite andb_true_iff, !forallb_forall. split.
  - intros [H12 H21] a. split; intros Hin.
    + apply mem_In, H12, Hin.
    + apply mem_In, H21, Hin.
  - intros H. split; intros a Hin; apply mem_In, H, Hin.
Qed.

Lemma set_eqb_false (l1 l2 : list label) :
  set_eqb l1 l2 = false <-> ~ same_labels l1 l2.
Proof.
  rewrite <- set_eqb_true. destruct (set_eqb l1 l2); split; intros H;
    try discriminate; try reflexivity.
  exfalso. apply H. reflexivity.
Qed.

Lemma negative_existsb (l : list R) :
  existsb (fun w => Rlt_b w 0) l = true <-> exists x, In x l /\ x < 0.
Proof.
  rewrite existsb_exists. split; intros [x [Hin Hx]]; exists x; split; auto.
  - apply Rlt_b_true, Hx.
  - apply Rlt_b_true, Hx.
Qed.

(* ===================================================================== *)
(** * validate_weights *)
(* ===================================================================== *)

Lemma validate_weights_mismatch (weights : dict) (assets : list label) :
  ~ same_labels (keys weights) assets ->
  validate_weights weights assets = Raise WeightMismatchError.
Proof.
  intros H. apply set_eqb_false in H. unfold validate_weights.
  rewrite H. reflexivity.
Qed.

Lemma validate_weights_sum (weights : dict) (assets : list label) :
  same_labels (keys weights) assets ->
  ~ weight_sum_ok weights ->
  validate_weights weights assets = Raise WeightSumError.
Proof.
  intros Hk Hs. apply set_eqb_true in Hk. unfold validate_weights.
  rewrite Hk. simpl. rewrite py_sum_sumR.
  unfold weight_sum_ok in Hs. unfold Rgt_b.
  destruct (Rlt_b 1e-6 (Rabs (sumR (values weights) - 1))) eqn:E.
  - reflexivity.
  - apply Rlt_b_false in E. contradiction.
Qed.

Lemma validate_weights_negative (weights : dict) (assets : list label) :
  same_labels (keys weights) assets ->
  weight_sum_ok weights ->
  has_negative_weight weights ->
  validate_weights weights assets = Raise NegativeWeightError.
Proof.
  intros Hk Hs Hn. apply set_eqb_true in Hk. unfold validate_weights.
  rewrite Hk. simpl. rewrite py_sum_sumR.
  unfold weight_sum_ok in Hs. unfold Rgt_b.
  destruct (Rlt_b 1e-6 (Rabs (sumR (values weights) - 1))) eqn:E.
  - apply Rlt_b_true in E. lra.
  - apply negative_existsb in Hn. rewrite Hn. reflexivity.
Qed.

Lemma validate_weights_ok (weights : dict) (assets : list label) :
  valid_weights weights assets ->
  validate_weights weights assets = Ok tt.
Proof.
  intros [Hk [Hs Hn]]. apply set_eqb_true in Hk. unfold validate_weights.
  rewrite Hk. simpl. rewrite py_sum_sumR.
  unfold weight_sum_ok in Hs. unfold Rgt_b.
  destruct (Rlt_b 1e-6 (Rabs (sumR (values weights) - 1))) eqn:E.
  - apply Rlt_b_true in E. lra.
  - destruct (existsb (fun w => Rlt_b w 0) (values weights)) eqn:E2.
    + apply negative_existsb in E2. contradiction.
    + reflexivity.
Qed.

Lemma validate_weights_ok_inv (weights : dict) (assets : list label) :
  validate_weights weights assets = Ok tt ->
  valid_weights weights assets.
Proof.
  unfold validate_weights, valid_weights.
  destruct (set_eqb (keys weights) assets) eqn:Hk; simpl; [|discriminate].
  rewrite py_sum_sumR. unfold Rgt_b.
  destruct (Rlt_b 1e-6 (Rabs (sumR (values weights) - 1))) eqn:E;
    [discriminate|].
  destruct (existsb (fun w => Rlt_b w 0) (values weights)) eqn:E2;
    [discriminate|].
  intros _. split; [apply set_eqb_true, Hk|]. split.
  - apply Rlt_b_false, E.
  - intros Hn. apply negative_existsb in Hn. congruence.
Qed.

(** An invalid weight vector is rejected, with the error of the first
    failing check. *)
Lemma validate_weights_invalid (weights : dict) (assets : list label) :
  ~ valid_weights weights assets ->
  exists e, validate_weights weights assets = Raise e /\
            (e = WeightMismatchError \/ e = WeightSumError \/
             e = NegativeWeightError).
Proof.
  intros Hinv.
  destruct (validate_weights weights assets) as [[]|e] eqn:E.
  - exfalso. apply Hinv, validate_weights_ok_inv, E.
  - exists e. split; [reflexivity|].
    revert E. unfold validate_weights.
    destruct (negb (set_eqb (keys weights) assets));
      [intros E; inversion E; auto|].
    destruct (Rgt_b _ _); [intros E; inversion E; auto|].
    destruct (existsb _ _); intros E; inversion E; auto.
Qed.

(** C9: [validate_weights] checks the key sets first, then the sum, then the
    signs, so a weight vector violating several conditions raises the error
    of the first failing check; [{A: -0.2, B: 1.5}] over [{A, B}] has a
    negative entry and a wrong sum and raises the weight-sum error. *)
Theorem validate_weights_check_order (weights : dict) (assets : list label) :
  (~ same_labels (keys weights) assets ->
   validate_weights weights assets = Raise WeightMismatchError) /\
  (same_labels (keys weights) assets -> ~ weight_sum_ok weights ->
   validate_weights weights assets = Raise WeightSumError) /\
  (same_labels (keys weights) assets -> weight_sum_ok weights ->
   has_negative_weight weights ->
   validate_weights weights assets = Raise NegativeWeightError) /\
  (has_negative_weight [("A"%string, -0.2); ("B"%string, 1.5)] /\
   validate_weights [("A"%string, -0.2); ("B"%string, 1.5)]
                    ["A"%string; "B"%string] = Raise WeightSumError).
Proof.
  split; [apply validate_weights_mismatch|].
  split; [apply validate_weights_sum|].
  split; [apply validate_weights_negative|].
  split.
  - exists (-0.2). simpl. split; [left; reflexivity | lra].
  - apply validate_weights_sum.
    + intros a. reflexivity.
    + unfold weight_sum_ok, sumR. simpl. unfold Rabs.
      destruct (Rcase_abs _); lra.
Qed.

Lemma validate_weights_check_order_witness :
  validate_weights [("A"%string, 1); ("C"%string, 1)]
                   ["A"%string; "B"%string] = Raise WeightMismatchError /\
  validate_weights [("A"%string, 0.5); ("B"%string, 0.6)]
                   ["A"%string; "B"%string] = Raise WeightSumError /\
  validate_weights [("A"%string, -0.2); ("B"%string, 1.2)]
                   ["A"%string; "B"%string] = Raise NegativeWeightError.
Proof.
  split; [|split].
  - apply (proj1 (validate_weights_check_order
                    [("A"%string, 1); ("C"%string, 1)]
                    ["A"%string; "B"%string])).
    intros H. destruct (H "B"%string) as [_ HB]. simpl in HB.
    destruct HB as [HB|[HB|HB]]; try discriminate; auto.
  - apply (proj1 (proj2 (validate_weights_check_order
                           [("A"%string, 0.5); ("B"%string, 0.6)]
                           ["A"%string; "B"%string]))).
    + intros a. reflexivity.
    + unfold weight_sum_ok, sumR. simpl. unfold Rabs.
      destruct (Rcase_abs _); lra.
  - apply (proj1 (proj2 (proj2 (validate_weights_check_order
                                  [("A"%string, -0.2); ("B"%string, 1.2)]
                                  ["A"%string; "B"%string])))).
    + intros a. reflexivity.
    + unfold weight_sum_ok, sumR. simpl. unfold Rabs.
      destruct (Rcase_abs _); lra.
    + exists (-0.2). simpl. split; [left; reflexivity | lra].
Defined.

(* ===================================================================== *)
(** * calculate_portfolio_annual_return *)
(* ===================================================================== *)

(** C10: on an empty daily-return series [calculate_portfolio_annual_return]
    raises nothing and returns exactly 0: the empty product is 1, minus 1. *)
Theorem annual_return_of_empty_series :
  calculate_portfolio_annual_return [] = Ok 0.
Proof.
  unfold calculate_portfolio_annual_return. simpl. f_equal. lra.
Qed.

(* ===================================================================== *)
(** * Positional access into zipped lists *)
(* ===================================================================== *)

Lemma length_map2 {A B C : Type} (f : A -> B -> C) (l1 : list A)
  (l2 : list B) :
  length (map2 f l1 l2) = Nat.min (length l1) (length l2).
Proof.
  revert l2. induction l1 as [|a l1 IH]; intros [|b l2]; simpl; auto.
Qed.

Lemma nth_map2_strict {A B C : Type} (f : A -> B -> C) (dA : A) (dB : B)
  (dC : C) :
  (forall b, f dA b = dC) -> (forall a, f a dB = dC) ->
  forall l1 l2 j,
    nth j (map2 f l1 l2) dC = f (nth j l1 dA) (nth j l2 dB).
Proof.
  intros HA HB. induction l1 as [|a l1 IH]; intros l2 j.
  - simpl. destruct j; rewrite HA; reflexivity.
  - destruct l2 as [|b l2].
    + simpl. destruct j; rewrite HB; reflexivity.
    + destruct j; simpl; [reflexivity | apply IH].
Qed.

Lemma map2_nil_r {A B C : Type} (f : A -> B -> C) (l : list A) :
  map2 f l [] = [].
Proof. destruct l; reflexivity. Qed.

Lemma vsub_None_l (b : value) : vsub None b = None.
Proof. reflexivity. Qed.

Lemma vsub_None_r (a : value) : vsub a None = None.
Proof. destruct a; reflexivity. Qed.

Lemma nth_row_map (f : value -> value) (rs : list (list value)) (t : nat) :
  nth t (map (map f) rs) [] = map f (nth t rs []).
Proof. change (@nil value) with (map f []) at 1. apply map_nth. Qed.

Lemma nth_cell_map (f : value -> value) (r : list value) (j : nat) :
  f None = None -> nth j (map f r) None = f (nth j r None).
Proof. intros H. rewrite <- H at 1. apply map_nth. Qed.

(* ===================================================================== *)
(** * metrics/returns.py: the emptiness guards *)
(* ===================================================================== *)

Lemma rows_diff_length (rs : list (list value)) :
  length (rows_diff rs) = length rs.
Proof.
  destruct rs as [|r0 rest]; simpl; [reflexivity|].
  rewrite length_map2. simpl. f_equal. apply Nat.min_l. lia.
Qed.

Lemma rows_diff_first (rs : list (list value)) (j : nat) :
  nth j (nth 0 (rows_diff rs) []) None = None.
Proof.
  destruct rs as [|r0 rest]; simpl.
  - destruct j; reflexivity.
  - unfold nan_row. revert j. induction r0 as [|c r0 IH]; intros [|j]; simpl;
      auto.
Qed.

Lemma rows_diff_next (rs : list (list value)) (t j : nat) :
  nth j (nth (S t) (rows_diff rs) []) None
  = vsub (nth j (nth (S t) rs []) None) (nth j (nth t rs []) None).
Proof.
  destruct rs as [|r0 rest].
  - simpl. destruct t, j; reflexivity.
  - cbn [rows_diff nth].
    rewrite (nth_map2_strict (map2 vsub) [] [] []).
    + apply (nth_map2_strict vsub None None None).
      * apply vsub_None_l.
      * apply vsub_None_r.
    + reflexivity.
    + intros a. apply map2_nil_r.
Qed.

(** C3: [daily_returns] raises [EmptyInputError] on a price table without
    rows; [daily_log_returns] has no emptiness check: on every table it
    returns the table of [ln(prices[t]) - ln(prices[t-1])], whose first row
    holds no value, and it never raises [EmptyInputError]. *)
Theorem returns_empty_guard_asymmetry (prices_df : DataFrame) :
  (rows prices_df = [] -> daily_returns prices_df = Raise EmptyInputError) /\
  (exists lr,
      daily_log_returns prices_df = Ok lr /\
      columns lr = columns prices_df /\
      length (rows lr) = length (rows prices_df) /\
      (forall j, df_cell lr 0 j = None) /\
      (forall t j,
          df_cell lr (S t) j
          = vsub (vlog (df_cell prices_df (S t) j))
                 (vlog (df_cell prices_df t j))) /\
      (forall t j p q,
          df_cell prices_df t j = Some p -> 0 < p ->
          df_cell prices_df (S t) j = Some q -> 0 < q ->
          df_cell lr (S t) j = Some (ln q - ln p))) /\
  daily_log_returns prices_df <> Raise EmptyInputError.
Proof.
  assert (Hcell : forall t j,
             df_cell (mkDataFrame (columns prices_df)
                        (rows_diff (map (map vlog) (rows prices_df))))
                     (S t) j
             = vsub (vlog (df_cell prices_df (S t) j))
                    (vlog (df_cell prices_df t j))).
  { intros t j. unfold df_cell. cbn [rows]. rewrite rows_diff_next.
    rewrite !nth_row_map, !nth_cell_map by reflexivity. reflexivity. }
  split; [|split].
  - intros Hrows. unfold daily_returns, df_empty. rewrite Hrows. reflexivity.
  - eexists. split; [reflexivity|]. split; [reflexivity|]. split; [|split].
    + cbn [rows]. rewrite rows_diff_length, length_map. reflexivity.
    + intros j. unfold df_cell. cbn [rows]. apply rows_diff_first.
    + split; [exact Hcell|].
      intros t j p q Hp Hp0 Hq Hq0. rewrite Hcell, Hp, Hq. simpl.
      destruct (Rlt_dec 0 q); [|contradiction].
      destruct (Rlt_dec 0 p); [|contradiction].
      reflexivity.
  - unfold daily_log_returns. discriminate.
Qed.

Lemma returns_empty_guard_asymmetry_witness :
  daily_returns (mkDataFrame ["A"%string] []) = Raise EmptyInputError /\
  daily_log_returns (mkDataFrame ["A"%string] [])
  = Ok (mkDataFrame ["A"%string] []) /\
  exists lr,
    daily_log_returns (mkDataFrame ["A"%string] [[Some 100]; [Some 110]])
    = Ok lr /\
    df_cell lr 1 0 = Some (ln 110 - ln 100).
Proof.
  split; [|split].
  - apply (proj1 (returns_empty_guard_asymmetry
                    (mkDataFrame ["A"%string] []))).
    reflexivity.
  - reflexivity.
  - destruct (proj1 (proj2 (returns_empty_guard_asymmetry
                (mkDataFrame ["A"%string] [[Some 100]; [Some 110]]))))
      as [lr [Hlr [_ [_ [_ [_ Hcell]]]]]].
    exists lr. split; [exact Hlr|].
    apply Hcell; [reflexivity | lra | reflexivity | lra].
Defined.

(* ===================================================================== *)
(** * risk_models/stress_engine.py: the market-wide shock *)
(* ===================================================================== *)

Lemma shock_guard_true (s : R) :
  vleb (Some (-1)) (Some s) && vleb (Some s) (Some 0) = true <-> -1 <= s <= 0.
Proof.
  simpl. rewrite andb_true_iff, !Rle_b_true. reflexivity.
Qed.

Lemma stressed_returns_outside (betas : Series) (s : R) :
  ~ (-1 <= s <= 0) ->
  calculate_stressed_assets_returns betas (Some s) = Raise InvalidShockError.
Proof.
  intros H. unfold calculate_stressed_assets_returns,
    stressed_assets_returns_on.
  destruct (vleb (Some (-1)) (Some s) && vleb (Some s) (Some 0)) eqn:E.
  - apply shock_guard_true in E. contradiction.
  - reflexivity.
Qed.

Lemma stressed_returns_inside (betas : Series) (s : R) :
  -1 <= s <= 0 ->
  calculate_stressed_assets_returns betas (Some s)
  = Ok (map (fun kv => (fst kv, vmul (snd kv) (Some s))) betas).
Proof.
  intros H. apply shock_guard_true in H.
  unfold calculate_stressed_assets_returns, stressed_assets_returns_on.
  rewrite H. reflexivity.
Qed.

(** In exact arithmetic the scenario of the specification gives -0.30. *)
Lemma stressed_returns_scenario_exact :
  calculate_stressed_assets_returns [("A"%string, Some 1.5)] (Some (-0.20))
  = Ok [("A"%string, Some (-0.30))].
Proof.
  rewrite stressed_returns_inside by lra. simpl. do 4 f_equal. lra.
Qed.

(** C7 as stated fails in the arithmetic of the program: on binary64 the
    product of 1.5 and -0.20 is not the double -0.30. *)
Lemma stressed_returns_scenario_not_exact :
  Binary64.calculate_stressed_assets_returns
    [("A"%string, 1.5%float)] (-0.20)%float
  <> Ok [("A"%string, (-0.30)%float)].
Proof.
  intros H.
  pose proof (f_equal
                (fun r => match r with
                          | Ok ((_, v) :: _) => PrimFloat.eqb v (-0.30)%float
                          | _ => false
                          end) H) as E.
  vm_compute in E. discriminate.
Qed.

(** C7, amended: a shock outside [-1, 0] (or one that is not a number)
    raises [InvalidShockError], a shock inside yields [beta_i * shock] per
    asset, on the idealised cells and on binary64 alike; the scenario
    beta = 1.5, shock = -0.20 gives -0.30 in exact arithmetic and, on
    binary64, -0.30000000000000004, the double next to -0.30. *)
Theorem stressed_returns_spec :
  (forall (betas : Series) (s : R),
      ~ (-1 <= s <= 0) ->
      calculate_stressed_assets_returns betas (Some s)
      = Raise InvalidShockError) /\
  (forall betas : Series,
      calculate_stressed_assets_returns betas None
      = Raise InvalidShockError) /\
  (forall (betas : Series) (s : R),
      -1 <= s <= 0 ->
      calculate_stressed_assets_returns betas (Some s)
      = Ok (map (fun kv => (fst kv, vmul (snd kv) (Some s))) betas)) /\
  calculate_stressed_assets_returns [("A"%string, Some 1.5)] (Some (-0.20))
  = Ok [("A"%string, Some (-0.30))] /\
  (forall (betas : list (label * PrimFloat.float)) (s : PrimFloat.float),
      (PrimFloat.leb (-1)%float s && PrimFloat.leb s 0%float) = false ->
      Binary64.calculate_stressed_assets_returns betas s
      = Raise InvalidShockError) /\
  (forall (betas : list (label * PrimFloat.float)) (s : PrimFloat.float),
      (PrimFloat.leb (-1)%float s && PrimFloat.leb s 0%float) = true ->
      Binary64.calculate_stressed_assets_returns betas s
      = Ok (map (fun kv => (fst kv, PrimFloat.mul (snd kv) s)) betas)) /\
  Binary64.calculate_stressed_assets_returns
    [("A"%string, 1.5%float)] (-0.20)%float
  = Ok [("A"%string, (-0.30000000000000004)%float)] /\
  PrimFloat.next_up (-0.30000000000000004)%float = (-0.30)%float.
Proof.
  split; [exact stressed_returns_outside|].
  split; [reflexivity|].
  split; [exact stressed_returns_inside|].
  split; [exact stressed_returns_scenario_exact|].
  split; [|split; [|split]].
  - intros betas s H. unfold Binary64.calculate_stressed_assets_returns,
      stressed_assets_returns_on. rewrite H. reflexivity.
  - intros betas s H. unfold Binary64.calculate_stressed_assets_returns,
      stressed_assets_returns_on. rewrite H. reflexivity.
  - vm_compute. reflexivity.
  - vm_compute. reflexivity.
Qed.

Lemma stressed_returns_spec_witness :
  calculate_stressed_assets_returns [("A"%string, Some 1.5)] (Some 0.1)
  = Raise InvalidShockError /\
  calculate_stressed_assets_returns [("A"%string, Some 2)] (Some (-0.5))
  = Ok [("A"%string, vmul (Some 2) (Some (-0.5)))] /\
  Binary64.calculate_stressed_assets_returns
    [("A"%string, 1.5%float)] (-1.5)%float
  = Raise InvalidShockError /\
  Binary64.calculate_stressed_assets_returns
    [("A"%string, 2%float)] (-0.5)%float
  = Ok [("A"%string, (-1)%float)].
Proof.
  split; [|split; [|split]].
  - apply (proj1 stressed_returns_spec). lra.
  - apply (proj1 (proj2 (proj2 stressed_returns_spec))
             [("A"%string, Some 2)] (-0.5)). lra.
  - apply (proj1 (proj2 (proj2 (proj2 (proj2 stressed_returns_spec))))).
    reflexivity.
  - apply (proj1 (proj2 (proj2 (proj2 (proj2 (proj2 stressed_returns_spec)))))
             [("A"%string, 2%float)] (-0.5)%float).
    reflexivity.
Defined.

(* ===================================================================== *)
(** * metrics/drawdown.py *)
(* ===================================================================== *)

Lemma nth_error_map2 {A B C : Type} (f : A -> B -> C) (l1 : list A)
  (l2 : list B) (t : nat) (a : A) (b : B) :
  nth_error l1 t = Some a -> nth_error l2 t = Some b ->
  nth_error (map2 f l1 l2) t = Some (f a b).
Proof.
  revert l2 t. induction l1 as [|x l1 IH]; intros [|y l2] [|t] H1 H2;
    simpl in *; try discriminate.
  - congruence.
  - apply IH; assumption.
Qed.

Lemma nth_error_In_firstn {A : Type} (l : list A) (t : nat) (a : A) :
  nth_error l t = Some a -> In a (firstn (S t) l).
Proof.
  revert t. induction l as [|x l IH]; intros [|t] H; simpl in *;
    try discriminate.
  - left. congruence.
  - right. apply IH, H.
Qed.

Lemma In_firstn {A : Type} (l : list A) (n : nat) (a : A) :
  In a (firstn n l) -> In a l.
Proof.
  revert n. induction l as [|x l IH]; intros [|n] H; simpl in *;
    try contradiction.
  destruct H as [E|H]; [left; exact E | right; apply (IH n), H].
Qed.

Lemma cummaxR_length (l : list R) (m : R) : length (cummaxR m l) = length l.
Proof. revert m. induction l as [|x l IH]; intros m; simpl; auto. Qed.

(** Each entry of the running maximum is the start value or one of the
    values seen so far, and bounds all of them. *)
Lemma cummaxR_nth (l : list R) :
  forall (m : R) (t : nat) (M : R),
    nth_error (cummaxR m l) t = Some M ->
    (M = m \/ In M (firstn (S t) l)) /\
    m <= M /\
    Forall (fun x => x <= M) (firstn (S t) l).
Proof.
  induction l as [|x l IH]; intros m t M H.
  - destruct t; discriminate.
  - destruct t as [|t]; simpl in H.
    + inversion H; subst. cbn [firstn]. split; [|split].
      * destruct (Rmax_cases m x) as [E|E]; rewrite E; [left | right; left];
          reflexivity.
      * apply Rmax_l.
      * constructor; [apply Rmax_r | constructor].
    + destruct (IH _ _ _ H) as [Hin [Hle Hall]].
      change (firstn (S (S t)) (x :: l)) with (x :: firstn (S t) l).
      split; [|split].
      * destruct Hin as [E|Hin].
        -- destruct (Rmax_cases m x) as [E'|E']; rewrite E' in E;
             [left | right; left]; congruence.
        -- right. right. exact Hin.
      * pose proof (Rmax_l m x). lra.
      * constructor; [pose proof (Rmax_r m x); lra | exact Hall].
Qed.

Lemma cummax_from_numbers (l : list R) (m : R) :
  cummax_from (Some m) (numbers l) = numbers (cummaxR m l).
Proof.
  revert m. induction l as [|x l IH]; intros m; simpl; [reflexivity|].
  rewrite IH. reflexivity.
Qed.

Lemma cummax_numbers (v : R) (l : list R) :
  cummax (numbers (v :: l)) = numbers (cummaxR v (v :: l)).
Proof.
  unfold cummax. simpl. rewrite cummax_from_numbers.
  rewrite (Rmax_left v v) by lra. reflexivity.
Qed.

(** On positive data the drawdown cells are all numbers. *)
Lemma drawdown_cells (l : list R) :
  forall m : R,
    0 < m ->
    map2 vdiv (map2 vsub (numbers l) (numbers (cummaxR m l)))
         (numbers (cummaxR m l))
    = numbers (map2 (fun v M => (v - M) / M) l (cummaxR m l)).
Proof.
  induction l as [|x l IH]; intros m Hm; simpl; [reflexivity|].
  assert (HM : 0 < Rmax m x) by (pose proof (Rmax_l m x); lra).
  destruct (Req_dec_T (Rmax m x) 0) as [E|_]; [lra|].
  f_equal. apply IH, HM.
Qed.

Lemma min_skipna_from_numbers (l : list R) :
  forall y : R,
    exists d, min_skipna_from (Some y) (numbers l) = Some d /\
              (d = y \/ In d l) /\ d <= y /\ Forall (fun x => d <= x) l.
Proof.
  induction l as [|x l IH]; intros y; simpl.
  - exists y. repeat split; auto. lra.
  - destruct (IH (Rmin y x)) as [d [Hd [Hin [Hle Hall]]]].
    exists d. split; [exact Hd|]. split; [|split].
    + destruct Hin as [E|Hin]; [|right; right; exact Hin].
      destruct (Rmin_cases y x) as [E'|E']; rewrite E' in E;
        [left | right; left]; congruence.
    + pose proof (Rmin_l y x). lra.
    + constructor; [pose proof (Rmin_r y x); lra | exact Hall].
Qed.

Lemma min_skipna_numbers (d0 : R) (l : list R) :
  exists d, min_skipna (numbers (d0 :: l)) = Some d /\
            is_series_min (d0 :: l) d.
Proof.
  destruct (min_skipna_from_numbers l d0) as [d [Hd [Hin [Hle Hall]]]].
  exists d. split; [exact Hd|]. split.
  - destruct Hin as [E|Hin]; [left; congruence | right; exact Hin].
  - constructor; assumption.
Qed.

Lemma drawdown_sign (v m : R) :
  0 < m -> v <= m -> (v - m) / m <= 0 /\ ((v - m) / m = 0 <-> v = m).
Proof.
  intros Hm Hv. pose proof (Rinv_0_lt_compat m Hm) as Hi. unfold Rdiv.
  split; [nra|]. split.
  - intros H. apply Rmult_integral in H. destruct H; lra.
  - intros ->. replace (m - m) with 0 by lra. apply Rmult_0_l.
Qed.

(** C4: on a strictly positive value series every drawdown entry is
    [(value - running_max) / running_max] for the running peak of its date,
    is at most 0, and is 0 exactly where the value is that running peak; the
    max drawdown returned is the least entry of the drawdown series. *)
Theorem calculate_drawdown_spec (vs : list R) :
  Forall (fun v => 0 < v) vs ->
  exists (dd : list R) (mdd : value),
    calculate_drawdown (numbers vs) = Ok (numbers dd, mdd) /\
    length dd = length vs /\
    (forall t v,
        nth_error vs t = Some v ->
        exists m,
          is_running_max vs t m /\
          nth_error dd t = Some ((v - m) / m) /\
          (v - m) / m <= 0 /\
          ((v - m) / m = 0 <-> v = m)) /\
    (vs <> [] -> exists d, mdd = Some d /\ is_series_min dd d).
Proof.
  intros Hpos. destruct vs as [|v0 l].
  - exists [], None. split; [reflexivity|]. split; [reflexivity|]. split.
    + intros [|t] v H; discriminate.
    + intros H. contradiction.
  - assert (Hv0 : 0 < v0) by (inversion Hpos; assumption).
    set (vs := v0 :: l) in *.
    set (dd := map2 (fun v M => (v - M) / M) vs (cummaxR v0 vs)).
    exists dd, (min_skipna (numbers dd)).
    split; [|split; [|split]].
    + unfold calculate_drawdown. subst vs. rewrite cummax_numbers.
      rewrite drawdown_cells by exact Hv0. reflexivity.
    + unfold dd. rewrite length_map2, cummaxR_length. apply Nat.min_id.
    + intros t v Hv.
      assert (Ht : (t < length (cummaxR v0 vs))%nat).
      { rewrite cummaxR_length. apply nth_error_Some. congruence. }
      destruct (nth_error (cummaxR v0 vs) t) as [m|] eqn:Hm;
        [|apply nth_error_Some in Ht; contradiction].
      destruct (cummaxR_nth _ _ _ _ Hm) as [Hin [_ Hall]].
      assert (Hin' : In m (firstn (S t) vs)).
      { destruct Hin as [E|Hin]; [|exact Hin]. subst m. left. reflexivity. }
      assert (Hmpos : 0 < m).
      { rewrite Forall_forall in Hpos. apply Hpos.
        apply (In_firstn vs (S t)), Hin'. }
      assert (Hvm : v <= m).
      { rewrite Forall_forall in Hall. apply Hall.
        apply nth_error_In_firstn, Hv. }
      exists m. split; [split; assumption|]. split.
      * exact (nth_error_map2 (fun v M => (v - M) / M) vs (cummaxR v0 vs)
                                t v m Hv Hm).
      * apply drawdown_sign; assumption.
    + intros _. unfold dd. subst vs. cbn [cummaxR map2].
      destruct (min_skipna_numbers ((v0 - Rmax v0 v0) / Rmax v0 v0)
                  (map2 (fun v M => (v - M) / M) l
                        (cummaxR (Rmax v0 v0) l))) as [d [Hd Hmin]].
      exists d. split; assumption.
Qed.

Lemma calculate_drawdown_spec_witness :
  exists (dd : list R) (mdd : value),
    calculate_drawdown (numbers [100; 110; 99; 121]) = Ok (numbers dd, mdd) /\
    nth_error dd 2 = Some ((99 - 110) / 110).
Proof.
  assert (Hpos : Forall (fun v => 0 < v) [100; 110; 99; 121]).
  { repeat constructor; lra. }
  destruct (calculate_drawdown_spec [100; 110; 99; 121] Hpos)
    as [dd [mdd [Hrun [_ [Hcells _]]]]].
  exists dd, mdd. split; [exact Hrun|].
  destruct (Hcells 2%nat 99 eq_refl) as [m [[Hin Hall] [Hnth _]]].
  assert (Hm : m = 110).
  { cbn [firstn] in Hin, Hall. rewrite Forall_forall in Hall.
    assert (110 <= m) by (apply Hall; simpl; auto).
    destruct Hin as [E|[E|[E|[]]]]; lra. }
  rewrite Hm in Hnth. exact Hnth.
Defined.

(* ===================================================================== *)
(** * Label-aligned operations on series *)
(* ===================================================================== *)

Lemma lookup_map_index {V : Type} (f : label -> V) (idx : list label)
  (a : label) :
  In a idx -> lookup a (map (fun b => (b, f b)) idx) = Some (f a).
Proof.
  induction idx as [|b idx IH]; intros Hin; [contradiction|].
  simpl. destruct (String.eqb a b) eqn:E.
  - apply String.eqb_eq in E. subst. reflexivity.
  - apply IH. destruct Hin as [Hb|Hin]; [|exact Hin].
    subst. rewrite String.eqb_refl in E. discriminate.
Qed.

Lemma lookup_map_values {V W : Type} (h : V -> W) (s : list (label * V))
  (a : label) :
  lookup a (map (fun kv => (fst kv, h (snd kv))) s)
  = option_map h (lookup a s).
Proof.
  induction s as [|[b v] s IH]; simpl; [reflexivity|].
  destruct (String.eqb a b); [reflexivity | exact IH].
Qed.

Lemma lookup_combine {V : Type} (ks : list label) (vs : list V) (j : nat)
  (a : label) (v : V) :
  NoDup ks -> nth_error ks j = Some a -> nth_error vs j = Some v ->
  lookup a (combine ks vs) = Some v.
Proof.
  intros Hnd. revert vs j. induction Hnd as [|k ks Hk Hnd IH];
    intros vs j Ha Hv.
  - destruct j; discriminate.
  - destruct vs as [|v0 vs]; [destruct j; discriminate|].
    destruct j as [|j]; simpl in *.
    + inversion Ha; inversion Hv; subst. rewrite String.eqb_refl. reflexivity.
    + destruct (String.eqb a k) eqn:E.
      * apply String.eqb_eq in E. subst. exfalso. apply Hk.
        apply nth_error_In in Ha. exact Ha.
      * apply (IH vs j); assumption.
Qed.

Lemma map_seq_combine {V : Type} (g : nat -> V) (ks : list label) :
  forall k : nat,
    map (fun i => (nth (i - k) ks EmptyString, g i)) (seq k (length ks))
    = combine ks (map g (seq k (length ks))).
Proof.
  induction ks as [|c ks IH]; intros k; simpl; [reflexivity|].
  rewrite Nat.sub_diag. f_equal. rewrite <- IH.
  apply map_ext_in. intros i Hi. apply in_seq in Hi.
  replace (i - k)%nat with (S (i - S k)) by lia. reflexivity.
Qed.

Lemma df_mean_combine (df : DataFrame) :
  df_mean df
  = combine (columns df)
            (map (fun j => mean_skipna (df_column df j))
                 (seq 0 (length (columns df)))).
Proof.
  unfold df_mean. rewrite <- map_seq_combine.
  apply map_ext. intros i. rewrite Nat.sub_0_r. reflexivity.
Qed.

(** The mean of the column of asset [a], looked up by label. *)
Lemma df_mean_lookup (df : DataFrame) (j : nat) (a : label) :
  NoDup (columns df) -> nth_error (columns df) j = Some a ->
  lookup a (df_mean df) = Some (mean_skipna (df_column df j)).
Proof.
  intros Hnd Ha. rewrite df_mean_combine.
  apply (lookup_combine _ _ j); [exact Hnd | exact Ha |].
  assert (Hj : (j < length (columns df))%nat).
  { apply nth_error_Some. congruence. }
  rewrite nth_error_map, nth_error_seq.
  destruct (Nat.ltb_spec j (length (columns df))); [reflexivity | lia].
Qed.

Lemma align_index_In_l (i1 i2 : list label) (a : label) :
  In a i1 -> In a (align_index i1 i2).
Proof.
  intros Hin. unfold align_index. destruct (list_eqb i1 i2); [exact Hin|].
  apply (Permutation_in a (LabelSort.Permuted_sort _)).
  apply nodup_In, in_or_app. left. exact Hin.
Qed.

Lemma align_index_In_r (i1 i2 : list label) (a : label) :
  In a i2 -> In a (align_index i1 i2).
Proof.
  intros Hin. unfold align_index. destruct (list_eqb i1 i2) eqn:E.
  - revert i2 E Hin. induction i1 as [|b i1 IH]; intros [|c i2] E Hin;
      simpl in *; try discriminate; try contradiction.
    apply andb_true_iff in E. destruct E as [E1 E2].
    apply String.eqb_eq in E1. subst c.
    destruct Hin as [Hin|Hin]; [left; exact Hin | right; apply (IH i2); auto].
  - apply (Permutation_in a (LabelSort.Permuted_sort _)).
    apply nodup_In, in_or_app. right. exact Hin.
Qed.

Lemma series_binop_lookup (op : value -> value -> value) (s1 s2 : Series)
  (a : label) :
  In a (keys s1) \/ In a (keys s2) ->
  lookup a (series_binop op s1 s2)
  = Some (op (cell_at a s1) (cell_at a s2)).
Proof.
  intros Hin. unfold series_binop.
  apply (lookup_map_index (fun b => op (cell_at b s1) (cell_at b s2))).
  destruct Hin; [apply align_index_In_l | apply align_index_In_r]; assumption.
Qed.

Lemma lookup_In_keys {V : Type} (s : list (label * V)) (a : label) (v : V) :
  lookup a s = Some v -> In a (keys s) /\ In v (values s).
Proof.
  induction s as [|[b w] s IH]; simpl; [discriminate|].
  destruct (String.eqb a b) eqn:E.
  - apply String.eqb_eq in E. intros H. inversion H; subst. auto.
  - intros H. destruct (IH H). auto.
Qed.

(* ===================================================================== *)
(** * metrics/sharpe.py *)
(* ===================================================================== *)

Lemma nonpositive_existsb (l : list value) :
  existsb (fun v => vleb v (Some 0)) l = true
  <-> exists x, In (Some x) l /\ x <= 0.
Proof.
  rewrite existsb_exists. split.
  - intros [[x|] [Hin Hx]]; [|discriminate].
    exists x. split; [exact Hin | apply Rle_b_true, Hx].
  - intros [x [Hin Hx]]. exists (Some x). split; [exact Hin|].
    apply Rle_b_true, Hx.
Qed.

(** C6: [calculate_sharpe] raises [UndefinedRatioError] exactly when some
    asset's annual volatility is at most 0; otherwise it returns, for each
    asset, the mean of its daily returns times the trading-day count divided
    by its annual volatility. *)
Theorem calculate_sharpe_spec (trading_days : R) (daily_returns : DataFrame)
  (annual_vol : Series) :
  (calculate_sharpe trading_days daily_returns annual_vol
   = Raise UndefinedRatioError
   <-> exists x, In (Some x) (values annual_vol) /\ x <= 0) /\
  (~ (exists x, In (Some x) (values annual_vol) /\ x <= 0) ->
   exists s,
     calculate_sharpe trading_days daily_returns annual_vol = Ok s /\
     forall (j : nat) (a : label) (m v : R),
       NoDup (columns daily_returns) ->
       nth_error (columns daily_returns) j = Some a ->
       mean_skipna (df_column daily_returns j) = Some m ->
       lookup a annual_vol = Some (Some v) ->
       lookup a s = Some (Some (m * trading_days / v))).
Proof.
  unfold calculate_sharpe. split.
  - rewrite <- nonpositive_existsb.
    destruct (existsb _ (values annual_vol)); split; intros H;
      try reflexivity; discriminate.
  - intros Hpos. rewrite <- nonpositive_existsb in Hpos.
    destruct (existsb _ (values annual_vol)) eqn:E;
      [exfalso; apply Hpos; reflexivity|].
    eexists. split; [reflexivity|].
    intros j a m v Hnd Ha Hm Hv.
    rewrite series_binop_lookup.
    + unfold cell_at at 1 2.
      rewrite (lookup_map_values (fun x => vmul x (Some trading_days))).
      rewrite (df_mean_lookup _ j a Hnd Ha), Hm, Hv. simpl.
      destruct (Req_dec_T v 0) as [Hz|_]; [|reflexivity].
      assert (H : existsb (fun v => vleb v (Some 0)) (values annual_vol)
                  = true).
      { apply nonpositive_existsb. exists v.
        split; [apply (lookup_In_keys _ _ _ Hv) | lra]. }
      rewrite E in H. discriminate.
    + right. apply (lookup_In_keys _ _ _ Hv).
Qed.

Lemma calculate_sharpe_spec_witness :
  calculate_sharpe 252 (mkDataFrame ["A"%string] [[None]; [Some 0.01]])
                   [("A"%string, Some 0)] = Raise UndefinedRatioError /\
  exists s,
    calculate_sharpe 252
      (mkDataFrame ["A"%string] [[None]; [Some 0.01]; [Some 0.03]])
      [("A"%string, Some 0.2)] = Ok s /\
    lookup "A"%string s
    = Some (Some ((0.01 + (0.03 + 0)) / INR 2 * 252 / 0.2)).
Proof.
  split.
  - apply (proj1 (calculate_sharpe_spec 252
                    (mkDataFrame ["A"%string] [[None]; [Some 0.01]])
                    [("A"%string, Some 0)])).
    exists 0. split; [left; reflexivity | lra].
  - destruct (proj2 (calculate_sharpe_spec 252
               (mkDataFrame ["A"%string] [[None]; [Some 0.01]; [Some 0.03]])
               [("A"%string, Some 0.2)])) as [s [Hs Hcell]].
    + intros [x [[E|[]] Hx]]. inversion E. lra.
    + exists s. split; [exact Hs|].
      apply (Hcell 0%nat "A"%string).
      * constructor; [intros [] | constructor].
      * reflexivity.
      * reflexivity.
      * reflexivity.
Defined.

(* ===================================================================== *)
(** * Weight validation across the pipeline *)
(* ===================================================================== *)

Lemma invalid_weights_rejected (weights : dict) (assets : list label) :
  invalid_weights weights assets ->
  exists e, validate_weights weights assets = Raise e.
Proof.
  intros Hinv.
  destruct (validate_weights_invalid weights assets) as [e [He _]].
  - intros [Hk [Hs Hn]]. destruct Hinv as [H|[H|H]]; auto.
  - exists e. exact He.
Qed.

(** The stress engine never looks at the validity of the weights: the
    weight vector [{A: 0.5, B: 0.6}], whose sum is 1.1, goes through
    [calculate_portfolio_loss] and [calculate_concentration_stress_loss]
    and both return a result. *)
Lemma stress_engine_takes_invalid_weights :
  invalid_weights [("A"%string, 0.5); ("B"%string, 0.6)]
                  ["A"%string; "B"%string] /\
  calculate_portfolio_loss
    [("A"%string, 0.5); ("B"%string, 0.6)]
    [("A"%string, Some (-0.3)); ("B"%string, Some (-0.2))]
  = Ok (-0.27) /\
  calculate_concentration_stress_loss
    [("A"%string, 0.5); ("B"%string, 0.6)] (Some (-0.4))
  = Ok [("A"%string, 0.5 * -0.4 + (0.6 * 0 + 0));
        ("B"%string, 0.5 * 0 + (0.6 * -0.4 + 0))].
Proof.
  split; [|split].
  - right. left. unfold weight_sum_ok, sumR. simpl. unfold Rabs.
    destruct (Rcase_abs _); lra.
  - unfold calculate_portfolio_loss. simpl. f_equal. lra.
  - unfold calculate_concentration_stress_loss. simpl.
    unfold Rle_b.
    destruct (Rle_dec (-1) (-0.4)) as [_|H]; [|exfalso; apply H; lra].
    destruct (Rle_dec (-0.4) 0) as [_|H]; [|exfalso; apply H; lra].
    reflexivity.
Qed.

(** C2, amended: the four weight-consuming operations of the portfolio
    aggregation engine validate the weight vector before anything else, so a
    weight vector with a key mismatch, a sum outside 1 +- 1e-6 or a negative
    entry makes each of them raise the validation error; the stress-engine
    operations [calculate_portfolio_loss] and
    [calculate_concentration_stress_loss] do not validate weights and return
    a result for every weight vector. *)
Theorem portfolio_engine_validates_first (weights : dict) :
  (forall asset_returns : DataFrame,
      invalid_weights weights (columns asset_returns) ->
      exists e,
        validate_weights weights (columns asset_returns) = Raise e /\
        calculate_portfolio_returns asset_returns weights = Raise e) /\
  (forall log_returns : DataFrame,
      invalid_weights weights (columns log_returns) ->
      exists e,
        validate_weights weights (columns log_returns) = Raise e /\
        calculate_daily_portfolio_volatility log_returns weights = Raise e) /\
  (forall (asset_vols : Series) (portfolio_vol : value),
      invalid_weights weights (keys asset_vols) ->
      exists e,
        validate_weights weights (keys asset_vols) = Raise e /\
        calculate_diversification_benefit asset_vols weights portfolio_vol
        = Raise e) /\
  (forall (log_returns : DataFrame) (portfolio_vol : value),
      invalid_weights weights (columns log_returns) ->
      exists e,
        validate_weights weights (columns log_returns) = Raise e /\
        calculate_asset_risk_contribution weights log_returns portfolio_vol
        = Raise e) /\
  (forall asset_stress_returns : Series,
      exists loss,
        calculate_portfolio_loss weights asset_stress_returns = Ok loss) /\
  (forall stress_amt : R,
      -1 <= stress_amt <= 0 ->
      exists losses,
        calculate_concentration_stress_loss weights (Some stress_amt)
        = Ok losses).
Proof.
  split; [|split; [|split; [|split; [|split]]]].
  - intros df Hinv. destruct (invalid_weights_rejected _ _ Hinv) as [e He].
    exists e. split; [exact He|].
    unfold calculate_portfolio_returns. rewrite He. reflexivity.
  - intros df Hinv. destruct (invalid_weights_rejected _ _ Hinv) as [e He].
    exists e. split; [exact He|].
    unfold calculate_daily_portfolio_volatility. rewrite He. reflexivity.
  - intros av pv Hinv. destruct (invalid_weights_rejected _ _ Hinv) as [e He].
    exists e. split; [exact He|].
    unfold calculate_diversification_benefit. rewrite He. reflexivity.
  - intros df pv Hinv. destruct (invalid_weights_rejected _ _ Hinv) as [e He].
    exists e. split; [exact He|].
    unfold calculate_asset_risk_contribution. rewrite He. reflexivity.
  - intros asr. eexists. reflexivity.
  - intros s Hs. apply shock_guard_true in Hs.
    unfold calculate_concentration_stress_loss. rewrite Hs.
    eexists. reflexivity.
Qed.

Lemma portfolio_engine_validates_first_witness :
  calculate_portfolio_returns
    (mkDataFrame ["A"%string; "B"%string] [[Some 0.01; Some 0.02]])
    [("A"%string, 0.5); ("B"%string, 0.6)]
  = Raise WeightSumError /\
  exists losses,
    calculate_concentration_stress_loss
      [("A"%string, 0.5); ("B"%string, 0.6)] (Some (-0.4)) = Ok losses.
Proof.
  assert (Hinv : invalid_weights [("A"%string, 0.5); ("B"%string, 0.6)]
                                 ["A"%string; "B"%string]).
  { right. left. unfold weight_sum_ok, sumR. simpl. unfold Rabs.
    destruct (Rcase_abs _); lra. }
  split.
  - destruct (proj1 (portfolio_engine_validates_first
                       [("A"%string, 0.5); ("B"%string, 0.6)])
                (mkDataFrame ["A"%string; "B"%string]
                             [[Some 0.01; Some 0.02]]) Hinv)
      as [e [He Hrun]].
    assert (E : validate_weights [("A"%string, 0.5); ("B"%string, 0.6)]
                                 ["A"%string; "B"%string]
                = Raise WeightSumError).
    { apply validate_weights_sum.
      - intros a. reflexivity.
      - unfold weight_sum_ok, sumR. simpl. unfold Rabs.
        destruct (Rcase_abs _); lra. }
    cbn [columns] in He. rewrite E in He. inversion He; subst e.
    exact Hrun.
  - apply (proj2 (proj2 (proj2 (proj2 (proj2
             (portfolio_engine_validates_first
                [("A"%string, 0.5); ("B"%string, 0.6)])))))).
    lra.
Defined.

(* ===================================================================== *)
(** * Inner products of arrays of numbers *)
(* ===================================================================== *)

Lemma values_Series_of_dict (d : dict) :
  values (Series_of_dict d) = numbers (values d).
Proof.
  unfold values, Series_of_dict, numbers. rewrite !map_map. reflexivity.
Qed.

Lemma keys_Series_of_dict (d : dict) : keys (Series_of_dict d) = keys d.
Proof. unfold keys, Series_of_dict. rewrite map_map. reflexivity. Qed.

Lemma numbers_length (l : list R) : length (numbers l) = length l.
Proof. apply length_map. Qed.

Lemma sum_skipna_numbers (l : list R) : sum_skipna (numbers l) = sumR l.
Proof.
  induction l as [|x l IH]; simpl; [reflexivity|]. rewrite IH. reflexivity.
Qed.

Lemma vdot_numbers (u v : list R) :
  vdot (numbers u) (numbers v) = Some (sumR (map2 Rmult u v)).
Proof.
  revert v. induction u as [|x u IH]; intros [|y v]; try reflexivity.
  unfold vdot in *. simpl. rewrite IH. reflexivity.
Qed.

(** An inner product with an array of numbers is a number only if the other
    array holds numbers too. *)
Lemma vdot_defined (ws : list R) :
  forall (inner : vector) (q : R),
    length ws = length inner ->
    vdot (numbers ws) inner = Some q ->
    exists ds, inner = numbers ds /\ q = sumR (map2 Rmult ws ds).
Proof.
  induction ws as [|w ws IH]; intros [|i inner] q Hlen Hq;
    try discriminate.
  - exists []. split; [reflexivity|]. inversion Hq. reflexivity.
  - unfold vdot in Hq. simpl in Hq.
    destruct i as [d|]; [|discriminate].
    destruct (fold_right vadd (Some 0) (map2 vmul (numbers ws) inner))
      as [q'|] eqn:E; [|discriminate].
    simpl in Hq. inversion Hq; subst q.
    destruct (IH inner q') as [ds [Hds Hq']].
    + simpl in Hlen. lia.
    + exact E.
    + exists (d :: ds). split.
      * rewrite Hds. reflexivity.
      * simpl. rewrite Hq'. reflexivity.
Qed.

Lemma map2_vmul_numbers (u v : list R) :
  map2 vmul (numbers u) (numbers v) = numbers (map2 Rmult u v).
Proof.
  revert v. induction u as [|x u IH]; intros [|y v]; try reflexivity.
  simpl. rewrite IH. reflexivity.
Qed.

Lemma map_vdiv_numbers (ds : list R) (v : R) :
  v <> 0 ->
  map (fun x => vdiv x (Some v)) (numbers ds)
  = numbers (map (fun d => d / v) ds).
Proof.
  intros Hv. induction ds as [|d ds IH]; simpl; [reflexivity|].
  destruct (Req_dec_T v 0); [contradiction|]. rewrite IH. reflexivity.
Qed.

Lemma sumR_map2_div (ws ds : list R) (v : R) :
  sumR (map2 Rmult ws (map (fun d => d / v) ds))
  = sumR (map2 Rmult ws ds) / v.
Proof.
  revert ds. induction ws as [|w ws IH]; intros [|d ds]; simpl;
    try (unfold Rdiv; lra).
  rewrite IH. unfold Rdiv. lra.
Qed.

Lemma values_combine {V : Type} (ks : list label) (vs : list V) :
  length ks = length vs -> values (combine ks vs) = vs.
Proof.
  revert vs. induction ks as [|k ks IH]; intros [|v vs] H; simpl in *;
    try discriminate; try reflexivity.
  f_equal. apply IH. lia.
Qed.

Lemma keys_combine {V : Type} (ks : list label) (vs : list V) :
  length ks = length vs -> keys (combine ks vs) = ks.
Proof.
  revert vs. induction ks as [|k ks IH]; intros [|v vs] H; simpl in *;
    try discriminate; try reflexivity.
  f_equal. apply IH. lia.
Qed.

Lemma np_dot_mv_length (M : matrix) (v inner : vector) :
  np_dot_mv M v = Ok inner -> length inner = length M.
Proof.
  unfold np_dot_mv. destruct (forallb _ M); [|discriminate].
  intros H. inversion H. apply length_map.
Qed.

(* ===================================================================== *)
(** * portfolio_engine.py: the Euler decomposition of risk *)
(* ===================================================================== *)

(** What a run of [calculate_daily_portfolio_volatility] that returns a
    number tells about its intermediate values. *)
Lemma daily_portfolio_volatility_inv (log_returns : DataFrame)
  (weights : dict) (v : R) :
  calculate_daily_portfolio_volatility log_returns weights = Ok (Some v) ->
  validate_weights weights (columns log_returns) = Ok tt /\
  exists ds q,
    np_dot_mv (df_cov log_returns) (numbers (values weights))
    = Ok (numbers ds) /\
    length ds = length weights /\
    q = sumR (map2 Rmult (values weights) ds) /\
    0 <= q /\ v = sqrt q.
Proof.
  unfold calculate_daily_portfolio_volatility.
  destruct (validate_weights weights (columns log_returns)) as [[]|e];
    [|discriminate].
  rewrite values_Series_of_dict. simpl.
  destruct (np_dot_mv (df_cov log_returns) (numbers (values weights)))
    as [inner|e] eqn:Hmv; [|discriminate].
  simpl. unfold np_dot_vv.
  destruct (Nat.eqb (length (numbers (values weights))) (length inner))
    eqn:Hlen; [|discriminate].
  simpl. apply Nat.eqb_eq in Hlen.
  destruct (vdot (numbers (values weights)) inner) as [q|] eqn:Hq;
    [|discriminate].
  simpl. destruct (Rlt_dec q 0) as [|Hq0]; [discriminate|].
  intros H. inversion H; subst v. split; [reflexivity|].
  rewrite numbers_length in Hlen.
  destruct (vdot_defined _ _ _ Hlen Hq) as [ds [Hds Hsum]].
  exists ds, q. subst inner. split; [reflexivity|].
  rewrite numbers_length in Hlen. unfold values in Hlen.
  rewrite length_map in Hlen.
  repeat split; auto. lra.
Qed.

Lemma flat_log_returns_cov : df_cov flat_log_returns = [[Some 0]].
Proof.
  unfold df_cov, flat_log_returns, df_column, cov_pair. simpl.
  do 3 f_equal. unfold Rdiv. ring.
Qed.

Lemma flat_log_returns_volatility :
  calculate_daily_portfolio_volatility flat_log_returns [("A"%string, 1)]
  = Ok (Some 0).
Proof.
  unfold calculate_daily_portfolio_volatility.
  rewrite validate_weights_ok.
  - rewrite flat_log_returns_cov. simpl.
    destruct (Rlt_dec (1 * (0 * 1 + 0) + 0) 0) as [H|_]; [lra|].
    do 2 f_equal. replace (1 * (0 * 1 + 0) + 0) with 0 by lra.
    apply sqrt_0.
  - split; [|split].
    + intros a. reflexivity.
    + unfold weight_sum_ok, sumR. simpl. unfold Rabs.
      destruct (Rcase_abs _); lra.
    + intros [x [[E|[]] Hx]]. simpl in E. lra.
Qed.

Lemma flat_log_returns_contribution :
  calculate_asset_risk_contribution [("A"%string, 1)] flat_log_returns
                                    (Some 0)
  = Ok [("A"%string, None)].
Proof.
  unfold calculate_asset_risk_contribution.
  rewrite validate_weights_ok.
  - rewrite flat_log_returns_cov. simpl.
    destruct (Req_dec_T 0 0) as [_|H]; [reflexivity | contradiction].
  - split; [|split].
    + intros a. reflexivity.
    + unfold weight_sum_ok, sumR. simpl. unfold Rabs.
      destruct (Rcase_abs _); lra.
    + intros [x [[E|[]] Hx]]. simpl in E. lra.
Qed.

(** C1 as stated fails where the portfolio volatility is zero: for one asset
    with a flat price the weight vector [{A: 1}] is valid, the volatility is
    0, and the contribution returned is not a number, so the returned values
    are no decomposition of the volatility. *)
Lemma risk_contribution_undefined_at_zero_volatility :
  valid_weights [("A"%string, 1)] (columns flat_log_returns) /\
  calculate_daily_portfolio_volatility flat_log_returns [("A"%string, 1)]
  = Ok (Some 0) /\
  ~ (exists rc cs,
        calculate_asset_risk_contribution [("A"%string, 1)] flat_log_returns
                                          (Some 0) = Ok rc /\
        values rc = numbers cs /\ sumR cs = 0).
Proof.
  split; [|split].
  - split; [|split].
    + intros a. reflexivity.
    + unfold weight_sum_ok, sumR. simpl. unfold Rabs.
      destruct (Rcase_abs _); lra.
    + intros [x [[E|[]] Hx]]. simpl in E. lra.
  - exact flat_log_returns_volatility.
  - intros [rc [cs [Hrc [Hvals _]]]].
    rewrite flat_log_returns_contribution in Hrc. inversion Hrc; subst rc.
    destruct cs; discriminate.
Qed.

(** C1, amended: whenever [calculate_daily_portfolio_volatility] returns a
    non-zero number [portfolio_vol] for a weight vector and a log-return
    table, [calculate_asset_risk_contribution] on the same inputs returns one
    number per asset, and these numbers sum to [portfolio_vol] (Euler
    decomposition); the pandas sum of the returned series agrees. *)
Theorem risk_contributions_sum_to_volatility (weights : dict)
  (log_returns : DataFrame) (portfolio_vol : R) :
  calculate_daily_portfolio_volatility log_returns weights
  = Ok (Some portfolio_vol) ->
  portfolio_vol <> 0 ->
  exists (rc : Series) (cs : list R),
    calculate_asset_risk_contribution weights log_returns
                                      (Some portfolio_vol) = Ok rc /\
    keys rc = keys weights /\
    values rc = numbers cs /\
    sumR cs = portfolio_vol /\
    sum_skipna (values rc) = portfolio_vol.
Proof.
  intros Hvol Hnz.
  destruct (daily_portfolio_volatility_inv _ _ _ Hvol)
    as [Hval [ds [q [Hmv [Hlen [Hq [Hq0 Hv]]]]]]].
  set (cs := map2 Rmult (values weights) (map (fun d => d / portfolio_vol) ds)).
  assert (Hcs : length cs = length weights).
  { unfold cs. rewrite length_map2, length_map. unfold values.
    rewrite length_map, Hlen. apply Nat.min_id. }
  assert (Hsum : sumR cs = portfolio_vol).
  { unfold cs. rewrite sumR_map2_div, <- Hq.
    assert (Hsq : portfolio_vol * portfolio_vol = q).
    { rewrite Hv. apply sqrt_sqrt, Hq0. }
    rewrite <- Hsq. field. exact Hnz. }
  exists (combine (keys weights) (numbers cs)), cs.
  split; [|split; [|split; [|split]]].
  - unfold calculate_asset_risk_contribution.
    rewrite Hval, values_Series_of_dict. simpl. rewrite Hmv. simpl.
    rewrite length_map, numbers_length, Hlen, Nat.eqb_refl.
    rewrite map_vdiv_numbers by exact Hnz.
    rewrite map2_vmul_numbers. reflexivity.
  - apply keys_combine. unfold keys.
    rewrite length_map, numbers_length, Hcs. reflexivity.
  - apply values_combine. unfold keys.
    rewrite length_map, numbers_length, Hcs. reflexivity.
  - exact Hsum.
  - rewrite values_combine.
    + rewrite sum_skipna_numbers. exact Hsum.
    + unfold keys. rewrite length_map, numbers_length, Hcs. reflexivity.
Qed.

Lemma moving_log_returns_cov : df_cov moving_log_returns = [[Some 2]].
Proof.
  unfold df_cov, moving_log_returns, df_column, cov_pair. simpl.
  do 3 f_equal. field.
Qed.

Lemma moving_log_returns_volatility :
  calculate_daily_portfolio_volatility moving_log_returns [("A"%string, 1)]
  = Ok (Some (sqrt 2)).
Proof.
  unfold calculate_daily_portfolio_volatility.
  rewrite validate_weights_ok.
  - rewrite moving_log_returns_cov. simpl.
    destruct (Rlt_dec (1 * (2 * 1 + 0) + 0) 0) as [H|_]; [lra|].
    do 3 f_equal. lra.
  - split; [|split].
    + intros a. reflexivity.
    + unfold weight_sum_ok, sumR. simpl. unfold Rabs.
      destruct (Rcase_abs _); lra.
    + intros [x [[E|[]] Hx]]. simpl in E. lra.
Qed.

Lemma risk_contributions_sum_to_volatility_witness :
  exists (rc : Series) (cs : list R),
    calculate_asset_risk_contribution [("A"%string, 1)] moving_log_returns
                                      (Some (sqrt 2)) = Ok rc /\
    values rc = numbers cs /\
    sumR cs = sqrt 2.
Proof.
  assert (Hnz : sqrt 2 <> 0).
  { pose proof (sqrt_lt_R0 2). lra. }
  destruct (risk_contributions_sum_to_volatility
              [("A"%string, 1)] moving_log_returns (sqrt 2)
              moving_log_returns_volatility Hnz)
    as [rc [cs [Hrc [_ [Hvals [Hsum _]]]]]].
  exists rc, cs. repeat split; assumption.
Defined.

(* ===================================================================== *)
(** * Arrays of numbers: from the numpy operations to real algebra *)
(* ===================================================================== *)

Lemma map_nth_seq {A B : Type} (f : A -> B) (l : list A) (d : A) :
  map (fun j => f (nth j l d)) (seq 0 (length l)) = map f l.
Proof.
  induction l as [|x l IH]; simpl; [reflexivity|].
  f_equal. rewrite <- seq_shift, map_map. exact IH.
Qed.

Lemma map2_as_seq {A B C : Type} (f : A -> B -> C) (d1 : A) (d2 : B) :
  forall (l1 : list A) (l2 : list B),
    length l1 = length l2 ->
    map2 f l1 l2
    = map (fun i => f (nth i l1 d1) (nth i l2 d2)) (seq 0 (length l1)).
Proof.
  induction l1 as [|x l1 IH]; intros [|y l2] Hlen; simpl in *;
    try discriminate; try reflexivity.
  f_equal. rewrite <- seq_shift, map_map. apply IH. lia.
Qed.

Lemma map_map2 {A B C D : Type} (g : C -> D) (f : A -> B -> C)
  (l1 : list A) (l2 : list B) :
  map g (map2 f l1 l2) = map2 (fun a b => g (f a b)) l1 l2.
Proof.
  revert l2. induction l1 as [|x l1 IH]; intros [|y l2]; simpl;
    try reflexivity.
  f_equal. apply IH.
Qed.

Lemma map2_map_l {A A' B C : Type} (f : A' -> B -> C) (g : A -> A')
  (l1 : list A) (l2 : list B) :
  map2 f (map g l1) l2 = map2 (fun a b => f (g a) b) l1 l2.
Proof.
  revert l2. induction l1 as [|x l1 IH]; intros [|y l2]; simpl;
    try reflexivity.
  f_equal. apply IH.
Qed.

Lemma map2_ext {A B C : Type} (f g : A -> B -> C) (l1 : list A)
  (l2 : list B) :
  (forall a b, f a b = g a b) -> map2 f l1 l2 = map2 g l1 l2.
Proof.
  intros H. revert l2. induction l1 as [|x l1 IH]; intros [|y l2]; simpl;
    try reflexivity.
  rewrite H. f_equal. apply IH.
Qed.

Lemma dotR_comm (u v : list R) : dotR u v = dotR v u.
Proof.
  unfold dotR. revert v. induction u as [|x u IH]; intros [|y v]; simpl;
    try reflexivity.
  rewrite IH. lra.
Qed.

(** The inner product with a scaled unit vector picks one entry. *)
Lemma dotR_unit_before (a : R) (c : list R) :
  forall s i : nat,
    (i < s)%nat ->
    dotR (map (fun k => if Nat.eqb i k then a else 0) (seq s (length c))) c
    = 0.
Proof.
  unfold dotR. induction c as [|x c IH]; intros s i Hi; simpl;
    [reflexivity|].
  destruct (Nat.eqb_spec i s) as [E|_]; [lia|].
  rewrite (IH (S s) i) by lia. lra.
Qed.

Lemma dotR_unit (a : R) (c : list R) :
  forall s i : nat,
    (s <= i < s + length c)%nat ->
    dotR (map (fun k => if Nat.eqb i k then a else 0) (seq s (length c))) c
    = a * nth (i - s) c 0.
Proof.
  induction c as [|x c IH]; intros s i Hi; simpl in *; [lia|].
  unfold dotR in *. simpl.
  destruct (Nat.eqb_spec i s) as [E|E].
  - subst i. rewrite Nat.sub_diag.
    pose proof (dotR_unit_before a c (S s) s) as H0. unfold dotR in H0.
    rewrite H0 by lia. lra.
  - rewrite (IH (S s) i) by lia.
    replace (i - s)%nat with (S (i - S s)) by lia. simpl. lra.
Qed.

Lemma np_dot_mv_numbers (M : list (list R)) (w : list R) :
  Forall (fun row => length row = length w) M ->
  np_dot_mv (map numbers M) (numbers w) = Ok (numbers (matvecR M w)).
Proof.
  intros Hshape. unfold np_dot_mv.
  assert (Hcheck : forallb (fun row => Nat.eqb (length row)
                                               (length (numbers w)))
                           (map numbers M) = true).
  { apply forallb_forall. intros row Hin. apply in_map_iff in Hin.
    destruct Hin as [r [Hr Hin]]. subst row.
    rewrite !numbers_length. apply Nat.eqb_eq.
    rewrite Forall_forall in Hshape. apply Hshape, Hin. }
  rewrite Hcheck. f_equal. unfold matvecR, numbers at 3.
  rewrite !map_map. apply map_ext. intros row. apply vdot_numbers.
Qed.

(** The chain [np.sqrt(np.dot(w.T, np.dot(M, w)))] shared by the portfolio
    engine and the stress engine, on arrays of numbers. *)
Lemma quadratic_form_chain (M : list (list R)) (w : list R) :
  length M = length w ->
  Forall (fun row => length row = length w) M ->
  (inner <- np_dot_mv (map numbers M) (numbers w) ;;
   q <- np_dot_vv (numbers w) inner ;;
   Ok (vsqrt q))
  = Ok (vsqrt (Some (quad_formR M w))).
Proof.
  intros Hlen Hshape. rewrite np_dot_mv_numbers by exact Hshape. simpl.
  unfold np_dot_vv. rewrite !numbers_length. unfold matvecR at 1.
  rewrite length_map, Hlen, Nat.eqb_refl. simpl.
  rewrite vdot_numbers. reflexivity.
Qed.

Lemma nth_numbers (l : list R) (i : nat) :
  (i < length l)%nat -> nth i (numbers l) None = Some (nth i l 0).
Proof.
  intros Hi. unfold numbers.
  rewrite (nth_indep _ None (Some 0)) by (rewrite length_map; exact Hi).
  apply (map_nth Some).
Qed.

Lemma nth_colR (M : list (list R)) (i j : nat) :
  nth i (colR M j) 0 = nth j (nth i M []) 0.
Proof.
  unfold colR.
  transitivity (nth i (map (fun row => nth j row 0) M) (nth j [] 0)).
  - f_equal. destruct j; reflexivity.
  - apply (map_nth (fun row => nth j row 0)).
Qed.

Lemma colR_length (M : list (list R)) (j : nat) :
  length (colR M j) = length M.
Proof. apply length_map. Qed.

Lemma square_ncols (n : nat) (M : list (list R)) :
  square n M -> length (hd [] M) = n.
Proof.
  intros [Hlen Hrows]. destruct M as [|row M]; simpl in *; [exact Hlen|].
  inversion Hrows; assumption.
Qed.

Lemma square_nth (n : nat) (M : list (list R)) (i : nat) :
  square n M -> (i < n)%nat -> length (nth i M []) = n.
Proof.
  intros [Hlen Hrows] Hi. rewrite Forall_forall in Hrows.
  apply Hrows, nth_In. lia.
Qed.

Lemma diagR_square (sigma : list R) : square (length sigma) (diagR sigma).
Proof.
  unfold square, diagR. split.
  - rewrite length_map, length_seq. reflexivity.
  - apply Forall_forall. intros row Hin. apply in_map_iff in Hin.
    destruct Hin as [i [Hrow _]]. subst row.
    rewrite length_map, length_seq. reflexivity.
Qed.

Lemma np_diag_numbers (sigma : list R) :
  np_diag (numbers sigma) = map numbers (diagR sigma).
Proof.
  unfold np_diag, diagR. rewrite numbers_length, map_map.
  apply map_ext_in. intros i Hi. apply in_seq in Hi.
  unfold numbers at 2. rewrite map_map. apply map_ext. intros j.
  destruct (Nat.eqb i j); [|reflexivity].
  apply nth_numbers. lia.
Qed.

Lemma mat_col_numbers (B : list (list R)) (j : nat) :
  Forall (fun row => (j < length row)%nat) B ->
  mat_col (map numbers B) j = numbers (colR B j).
Proof.
  intros Hj. unfold mat_col, colR, numbers at 2. rewrite !map_map.
  apply map_ext_in. intros row Hin. apply nth_numbers.
  rewrite Forall_forall in Hj. apply Hj, Hin.
Qed.

Lemma matmul_numbers (n : nat) (A B : list (list R)) :
  Forall (fun row => length row = n) A -> square n B ->
  matmul (map numbers A) (map numbers B) = Ok (map numbers (matmulR A B)).
Proof.
  intros HA HB. unfold matmul.
  assert (Hcheck : forallb (fun row => Nat.eqb (length row)
                                               (length (map numbers B)))
                           (map numbers A) = true).
  { apply forallb_forall. intros row Hin. apply in_map_iff in Hin.
    destruct Hin as [r [Hr Hin]]. subst row.
    rewrite numbers_length, length_map. apply Nat.eqb_eq.
    rewrite Forall_forall in HA. rewrite (HA r Hin). symmetry. apply HB. }
  rewrite Hcheck. f_equal.
  assert (Hn : mat_ncols (map numbers B) = length (hd [] B)).
  { unfold mat_ncols. destruct B; simpl; [reflexivity|].
    apply numbers_length. }
  rewrite Hn. unfold matmulR. rewrite !map_map. apply map_ext. intros row.
  unfold numbers at 3. rewrite map_map. apply map_ext_in. intros j Hj.
  apply in_seq in Hj. rewrite (square_ncols n B HB) in Hj.
  rewrite mat_col_numbers.
  - apply vdot_numbers.
  - destruct HB as [_ HB]. apply Forall_forall. intros r Hr.
    rewrite Forall_forall in HB. rewrite (HB r Hr). lia.
Qed.

(** Multiplying by a diagonal matrix on the left scales the rows. *)
Lemma matmulR_diag_l (sigma : list R) (C : list (list R)) :
  square (length sigma) C ->
  matmulR (diagR sigma) C
  = map2 (fun si row => map (Rmult si) row) sigma C.
Proof.
  intros HS. pose proof (square_ncols _ _ HS) as Hm.
  destruct HS as [Hlen Hrows].
  unfold matmulR, diagR. rewrite map_map.
  rewrite (map2_as_seq _ 0 [] sigma C) by (symmetry; exact Hlen).
  apply map_ext_in. intros i Hi. apply in_seq in Hi.
  assert (Hrow : length (nth i C []) = length sigma).
  { apply square_nth; [split; assumption | lia]. }
  rewrite <- (map_nth_seq (Rmult (nth i sigma 0)) (nth i C []) 0).
  rewrite Hrow, Hm. apply map_ext. intros j.
  rewrite <- Hlen at 1. rewrite <- (colR_length C j).
  rewrite dotR_unit by (rewrite colR_length; lia).
  rewrite Nat.sub_0_r, nth_colR. reflexivity.
Qed.

Lemma colR_diagR (sigma : list R) (j : nat) :
  (j < length sigma)%nat ->
  colR (diagR sigma) j
  = map (fun k => if Nat.eqb j k then nth j sigma 0 else 0)
        (seq 0 (length sigma)).
Proof.
  intros Hj. unfold colR, diagR. rewrite map_map.
  apply map_ext_in. intros k Hk.
  rewrite (nth_indep _ 0 (if Nat.eqb k 0 then nth k sigma 0 else 0))
    by (rewrite length_map, length_seq; exact Hj).
  rewrite (map_nth (fun j' => if Nat.eqb k j' then nth k sigma 0 else 0)).
  rewrite seq_nth by exact Hj. simpl.
  destruct (Nat.eqb_spec k j) as [E|E]; destruct (Nat.eqb_spec j k) as [E'|E'];
    subst; try reflexivity; congruence.
Qed.

(** Multiplying by a diagonal matrix on the right scales the columns. *)
Lemma matmulR_diag_r (sigma : list R) (A : list (list R)) :
  Forall (fun row => length row = length sigma) A ->
  matmulR A (diagR sigma) = map (fun row => map2 Rmult row sigma) A.
Proof.
  intros HA. unfold matmulR.
  rewrite (square_ncols _ _ (diagR_square sigma)).
  apply map_ext_in. intros row Hin.
  rewrite Forall_forall in HA. pose proof (HA row Hin) as Hrow.
  rewrite (map2_as_seq _ 0 0 row sigma) by exact Hrow.
  rewrite Hrow. apply map_ext_in. intros j Hj. apply in_seq in Hj.
  rewrite colR_diagR by lia. rewrite dotR_comm.
  rewrite <- Hrow. rewrite dotR_unit by lia.
  rewrite Nat.sub_0_r. lra.
Qed.

Lemma Forall_map2 {A B C : Type} (P : C -> Prop) (f : A -> B -> C)
  (l1 : list A) (l2 : list B) :
  (forall a b, In b l2 -> P (f a b)) -> Forall P (map2 f l1 l2).
Proof.
  revert l2. induction l1 as [|x l1 IH]; intros [|y l2] H; simpl;
    try constructor.
  - apply H. left. reflexivity.
  - apply IH. intros a b Hb. apply H. right. exact Hb.
Qed.

(** [D . C . D] entry by entry. *)
Lemma diag_sandwich (sigma : list R) (C : list (list R)) :
  square (length sigma) C ->
  matmulR (matmulR (diagR sigma) C) (diagR sigma) = scaled_covR sigma C.
Proof.
  intros HC. rewrite matmulR_diag_l by exact HC.
  rewrite matmulR_diag_r.
  - unfold scaled_covR. rewrite map_map2. apply map2_ext. intros si row.
    rewrite map2_map_l. apply map2_ext. intros c sj. lra.
  - apply Forall_map2. intros si row Hrow. rewrite length_map.
    destruct HC as [_ HC]. rewrite Forall_forall in HC. apply HC, Hrow.
Qed.

Lemma scaled_covR_square (sigma : list R) (C : list (list R)) :
  square (length sigma) C -> square (length sigma) (scaled_covR sigma C).
Proof.
  intros [Hlen Hrows]. unfold scaled_covR. split.
  - rewrite length_map2, Hlen. apply Nat.min_id.
  - apply Forall_map2. intros si row Hrow.
    rewrite Forall_forall in Hrows.
    rewrite length_map2, (Hrows row Hrow). apply Nat.min_id.
Qed.

(* ===================================================================== *)
(** * stress_engine.py: correlation breakdown *)
(* ===================================================================== *)

Lemma stressed_corr_numbers (corr : list (list R)) :
  map (map (fun c => vclip (-1) 1 (vmul c (Some 1.5)))) (map numbers corr)
  = map numbers (map (map stress_corr) corr).
Proof.
  rewrite !map_map. apply map_ext. intros row.
  unfold numbers. rewrite !map_map. reflexivity.
Qed.

Lemma square_map (n : nat) (f : R -> R) (M : list (list R)) :
  square n M -> square n (map (map f) M).
Proof.
  intros [Hlen Hrows]. split.
  - rewrite length_map. exact Hlen.
  - apply Forall_forall. intros row Hin. apply in_map_iff in Hin.
    destruct Hin as [r [Hr Hin]]. subst row. rewrite length_map.
    rewrite Forall_forall in Hrows. apply Hrows, Hin.
Qed.

Lemma matmulR_rows (n : nat) (A B : list (list R)) :
  square n B -> Forall (fun row => length row = n) (matmulR A B).
Proof.
  intros HB. unfold matmulR. apply Forall_forall. intros row Hin.
  apply in_map_iff in Hin. destruct Hin as [r [Hr _]]. subst row.
  rewrite length_map, length_seq. apply (square_ncols n B HB).
Qed.

Lemma vsqrt_nonneg (q : R) : 0 <= q -> vsqrt (Some q) = Some (sqrt q).
Proof.
  intros Hq. simpl. destruct (Rlt_dec q 0); [lra | reflexivity].
Qed.

(** The portfolio engine on a covariance matrix of numbers. *)
Lemma daily_portfolio_volatility_numbers (log_returns : DataFrame)
  (weights : dict) (cov : list (list R)) :
  validate_weights weights (columns log_returns) = Ok tt ->
  df_cov log_returns = map numbers cov ->
  square (length weights) cov ->
  calculate_daily_portfolio_volatility log_returns weights
  = Ok (vsqrt (Some (quad_formR cov (values weights)))).
Proof.
  intros Hval Hcov [Hlen Hrows].
  unfold calculate_daily_portfolio_volatility.
  rewrite Hval, Hcov, values_Series_of_dict. simpl.
  apply quadratic_form_chain.
  - unfold values. rewrite length_map. exact Hlen.
  - unfold values. rewrite length_map. exact Hrows.
Qed.

(** C8: on a correlation matrix, volatilities and weights that are numbers,
    [calculate_correlation_breakdown_volatility] returns the square root of
    the quadratic form [w' (D clip(1.5 Corr, -1, 1) D) w], where entry
    [(i, j)] of the stressed covariance is
    [vol_i * clip(1.5 corr_ij, -1, 1) * vol_j]; it is the quadratic-form
    volatility of the portfolio engine, taken on the stressed covariance;
    the annualised value is the daily one times [sqrt 252]. *)
Theorem correlation_breakdown_volatility_spec (cols : list label)
  (corr : list (list R)) (asset_vols weights : dict) :
  square (length weights) corr ->
  length asset_vols = length weights ->
  (calculate_correlation_breakdown_volatility
     (mkDataFrame cols (map numbers corr)) (Series_of_dict asset_vols) weights
   = Ok (vsqrt (Some (quad_formR
                        (scaled_covR (values asset_vols)
                                     (map (map stress_corr) corr))
                        (values weights))))) /\
  (0 <= quad_formR (scaled_covR (values asset_vols)
                                (map (map stress_corr) corr))
                   (values weights) ->
   calculate_correlation_breakdown_volatility
     (mkDataFrame cols (map numbers corr)) (Series_of_dict asset_vols) weights
   = Ok (Some (sqrt (quad_formR
                       (scaled_covR (values asset_vols)
                                    (map (map stress_corr) corr))
                       (values weights))))) /\
  (forall (log_returns : DataFrame) (cov : list (list R)),
      validate_weights weights (columns log_returns) = Ok tt ->
      df_cov log_returns = map numbers cov ->
      square (length weights) cov ->
      calculate_daily_portfolio_volatility log_returns weights
      = Ok (vsqrt (Some (quad_formR cov (values weights))))) /\
  (forall d : R,
      calculate_annual_correlation_breakdown_volatility (Some d)
      = Ok (Some (d * sqrt 252))).
Proof.
  intros Hcorr Hvols.
  assert (Hsig : length (values asset_vols) = length weights).
  { unfold values. rewrite length_map. exact Hvols. }
  assert (Hw : length (values weights) = length weights).
  { unfold values. apply length_map. }
  assert (HS : square (length (values asset_vols))
                      (map (map stress_corr) corr)).
  { rewrite Hsig. apply square_map, Hcorr. }
  assert (Hrun :
    calculate_correlation_breakdown_volatility
      (mkDataFrame cols (map numbers corr)) (Series_of_dict asset_vols)
      weights
    = Ok (vsqrt (Some (quad_formR
                         (scaled_covR (values asset_vols)
                                      (map (map stress_corr) corr))
                         (values weights))))).
  { unfold calculate_correlation_breakdown_volatility. cbn [rows].
    rewrite stressed_corr_numbers, !values_Series_of_dict, np_diag_numbers.
    rewrite (matmul_numbers (length (values asset_vols))); [|apply diagR_square | exact HS].
    cbn [bind].
    rewrite (matmul_numbers (length (values asset_vols)));
      [|apply matmulR_rows, HS | apply diagR_square].
    cbn [bind]. rewrite diag_sandwich by exact HS.
    destruct (scaled_covR_square _ _ HS) as [Hlen Hrows].
    apply quadratic_form_chain.
    - rewrite Hlen, Hsig, Hw. reflexivity.
    - rewrite Hw, <- Hsig. exact Hrows. }
  split; [exact Hrun|]. split; [|split].
  - intros Hq. rewrite Hrun, vsqrt_nonneg by exact Hq. reflexivity.
  - intros log_returns S. apply daily_portfolio_volatility_numbers.
  - intros d. reflexivity.
Qed.

Lemma correlation_breakdown_volatility_spec_witness :
  calculate_correlation_breakdown_volatility
    (mkDataFrame ["A"%string; "B"%string]
                 (map numbers [[1; 0.5]; [0.5; 1]]))
    (Series_of_dict [("A"%string, 0.01); ("B"%string, 0.02)])
    [("A"%string, 0.5); ("B"%string, 0.5)]
  = Ok (Some (sqrt (quad_formR
                      (scaled_covR [0.01; 0.02]
                                   (map (map stress_corr)
                                        [[1; 0.5]; [0.5; 1]]))
                      [0.5; 0.5]))) /\
  calculate_daily_portfolio_volatility moving_log_returns [("A"%string, 1)]
  = Ok (vsqrt (Some (quad_formR [[2]] [1]))).
Proof.
  assert (Hsq : square 2 [[1; 0.5]; [0.5; 1]]).
  { split; [reflexivity | repeat constructor]. }
  split.
  - apply (proj1 (proj2 (correlation_breakdown_volatility_spec
                    ["A"%string; "B"%string] [[1; 0.5]; [0.5; 1]]
                    [("A"%string, 0.01); ("B"%string, 0.02)]
                    [("A"%string, 0.5); ("B"%string, 0.5)]
                    Hsq eq_refl))).
    unfold quad_formR, matvecR, dotR, scaled_covR, stress_corr, sumR.
    simpl. unfold Rmin, Rmax.
    repeat match goal with
           | |- context [Rle_dec ?a ?b] => destruct (Rle_dec a b)
           end; lra.
  - apply (proj1 (proj2 (proj2 (correlation_breakdown_volatility_spec
                    ["A"%string] [[1]] [("A"%string, 0.01)]
                    [("A"%string, 1)]
                    (conj eq_refl (Forall_cons [1] eq_refl (Forall_nil _)))
                    eq_refl)))
             moving_log_returns [[2]]).
    + apply validate_weights_ok. split; [intros a; reflexivity|]. split.
      * unfold weight_sum_ok, sumR. simpl. unfold Rabs.
        destruct (Rcase_abs _); lra.
      * intros [x [[E|[]] Hx]]. simpl in E. lra.
    + apply moving_log_returns_cov.
    + split; [reflexivity | repeat constructor].
Defined.

(* ===================================================================== *)
(** * Sums over asset labels *)
(* ===================================================================== *)

Lemma sumR_map_scale {A : Type} (c : R) (f : A -> R) (l : list A) :
  sumR (map (fun a => c * f a) l) = c * sumR (map f l).
Proof.
  induction l as [|x l IH]; simpl; [lra|]. rewrite IH. lra.
Qed.

Lemma sumR_map_Permutation {A : Type} (f : A -> R) (l l' : list A) :
  Permutation l l' -> sumR (map f l) = sumR (map f l').
Proof.
  induction 1; simpl; lra.
Qed.

Lemma list_eqb_eq (l1 l2 : list label) : list_eqb l1 l2 = true -> l1 = l2.
Proof.
  revert l2. induction l1 as [|a l1 IH]; intros [|b l2] H; simpl in H;
    try discriminate; try reflexivity.
  apply andb_true_iff in H. destruct H as [H1 H2].
  apply String.eqb_eq in H1. subst. f_equal. apply IH, H2.
Qed.

(** Aligning two indexes over the same distinct labels visits every label
    once. *)
Lemma align_index_Permutation (i1 i2 : list label) :
  NoDup i1 -> same_labels i2 i1 -> Permutation (align_index i1 i2) i1.
Proof.
  intros Hnd Hsame. unfold align_index.
  destruct (list_eqb i1 i2); [apply Permutation_refl|].
  apply Permutation_trans with (nodup string_dec (i1 ++ i2)).
  - apply Permutation_sym, LabelSort.Permuted_sort.
  - apply NoDup_Permutation; [apply NoDup_nodup | exact Hnd |].
    intros a. rewrite nodup_In, in_app_iff. split.
    + intros [H|H]; [exact H | apply Hsame, H].
    + intros H. left. exact H.
Qed.

Lemma cell_at_Series_of_dict (a : label) (d : dict) :
  In a (keys d) -> cell_at a (Series_of_dict d) = Some (dict_get a d).
Proof.
  unfold cell_at, dict_get, Series_of_dict.
  induction d as [|[b x] d IH]; intros Hin; [contradiction|].
  simpl. destruct (String.eqb a b) eqn:E; [reflexivity|].
  apply IH. destruct Hin as [Hb|Hin]; [|exact Hin].
  simpl in Hb. subst. rewrite String.eqb_refl in E. discriminate.
Qed.

(** The naive volatility computed through the label-aligned product is the
    weighted sum of the asset volatilities. *)
Lemma naive_vol_weighted (asset_vols weights : dict) :
  NoDup (keys asset_vols) ->
  same_labels (keys weights) (keys asset_vols) ->
  sum_skipna (values (series_binop vmul (Series_of_dict asset_vols)
                                   (Series_of_dict weights)))
  = weighted_vol asset_vols weights.
Proof.
  intros Hnd Hsame. unfold series_binop, weighted_vol.
  rewrite !keys_Series_of_dict.
  pose proof (align_index_Permutation _ _ Hnd Hsame) as Hperm.
  rewrite <- (sumR_map_Permutation _ _ _ Hperm).
  unfold values. rewrite map_map. cbn [snd].
  rewrite <- sum_skipna_numbers. unfold numbers. rewrite map_map.
  f_equal. apply map_ext_in. intros a Ha.
  assert (Hin : In a (keys asset_vols)).
  { apply (Permutation_in a Hperm), Ha. }
  rewrite !cell_at_Series_of_dict; [reflexivity | apply Hsame, Hin | exact Hin].
Qed.

Lemma dict_get_keys (d : dict) :
  NoDup (keys d) -> map (fun a => dict_get a d) (keys d) = values d.
Proof.
  induction d as [|[k x] d IH]; intros Hnd; [reflexivity|].
  inversion Hnd as [|k' ks Hk Hnd' E]; subst.
  cbn [keys values map fst snd]. f_equal.
  - unfold dict_get. simpl. rewrite String.eqb_refl. reflexivity.
  - transitivity (map (fun a => dict_get a d) (keys d)); [|apply IH, Hnd'].
    apply map_ext_in. intros a Ha.
    unfold dict_get. simpl. destruct (String.eqb a k) eqn:Eak;
      [|reflexivity].
    apply String.eqb_eq in Eak. subst a. contradiction.
Qed.


(* ===================================================================== *)
(** * Further properties: metrics/returns.py *)
(* ===================================================================== *)

Lemma pct_None_l (b : value) : vsub (vdiv None b) (Some 1) = None.
Proof. reflexivity. Qed.

Lemma pct_None_r (a : value) : vsub (vdiv a None) (Some 1) = None.
Proof. destruct a; reflexivity. Qed.

Lemma rows_pct_change_length (rs : list (list value)) :
  length (rows_pct_change rs) = length rs.
Proof.
  destruct rs as [|r0 rest]; simpl; [reflexivity|].
  rewrite length_map2. simpl. f_equal. apply Nat.min_l. lia.
Qed.

Lemma rows_pct_change_first (rs : list (list value)) (j : nat) :
  nth j (nth 0 (rows_pct_change rs) []) None = None.
Proof.
  destruct rs as [|r0 rest]; simpl.
  - destruct j; reflexivity.
  - unfold nan_row. revert j. induction r0 as [|c r0 IH]; intros [|j]; simpl;
      auto.
Qed.

Lemma rows_pct_change_next (rs : list (list value)) (t j : nat) :
  nth j (nth (S t) (rows_pct_change rs) []) None
  = vsub (vdiv (nth j (nth (S t) rs []) None) (nth j (nth t rs []) None))
         (Some 1).
Proof.
  destruct rs as [|r0 rest].
  - simpl. destruct t, j; reflexivity.
  - cbn [rows_pct_change nth].
    rewrite (nth_map2_strict
               (map2 (fun p q => vsub (vdiv p q) (Some 1))) [] [] []).
    + apply (nth_map2_strict (fun p q => vsub (vdiv p q) (Some 1))
                             None None None).
      * apply pct_None_l.
      * apply pct_None_r.
    + reflexivity.
    + intros a. apply map2_nil_r.
Qed.

(** [daily_returns] raises on a table without columns even when it has
    rows; on a table with rows and columns it returns a table of the same
    shape whose first row holds no value and whose later cells are
    [prices[t] / prices[t-1] - 1]. *)
Theorem daily_returns_spec (prices_df : DataFrame) :
  (columns prices_df = [] ->
   daily_returns prices_df = Raise EmptyInputError) /\
  (rows prices_df <> [] -> columns prices_df <> [] ->
   exists sr,
     daily_returns prices_df = Ok sr /\
     columns sr = columns prices_df /\
     length (rows sr) = length (rows prices_df) /\
     (forall j, df_cell sr 0 j = None) /\
     (forall t j p q,
         df_cell prices_df t j = Some p -> p <> 0 ->
         df_cell prices_df (S t) j = Some q ->
         df_cell sr (S t) j = Some (q / p - 1))).
Proof.
  split.
  - intros Hcols. unfold daily_returns, df_empty. rewrite Hcols.
    rewrite orb_true_r. reflexivity.
  - intros Hrows Hcols.
    assert (Hne : df_empty prices_df = false).
    { unfold df_empty. destruct (rows prices_df); [contradiction|].
      destruct (columns prices_df); [contradiction | reflexivity]. }
    unfold daily_returns. rewrite Hne.
    eexists. split; [reflexivity|]. split; [reflexivity|].
    split; [|split].
    + cbn [rows]. rewrite rows_pct_change_length. reflexivity.
    + intros j. unfold df_cell. cbn [rows]. apply rows_pct_change_first.
    + intros t j p q Hp Hp0 Hq. unfold df_cell in *. cbn [rows].
      rewrite rows_pct_change_next, Hp, Hq. simpl.
      destruct (Req_dec_T p 0); [contradiction | reflexivity].
Qed.

Lemma daily_returns_spec_witness :
  daily_returns (mkDataFrame [] [[]; []]) = Raise EmptyInputError /\
  exists sr,
    daily_returns
      (mkDataFrame ["A"%string] [[Some 100]; [Some 110]; [Some 99]])
    = Ok sr /\
    df_cell sr 2 0 = Some (99 / 110 - 1).
Proof.
  split.
  - apply (proj1 (daily_returns_spec (mkDataFrame [] [[]; []]))).
    reflexivity.
  - destruct (proj2 (daily_returns_spec
               (mkDataFrame ["A"%string] [[Some 100]; [Some 110]; [Some 99]])))
      as [sr [Hsr [_ [_ [_ Hcell]]]]]; try discriminate.
    exists sr. split; [exact Hsr|].
    apply (Hcell 1%nat 0%nat 110 99); [reflexivity | lra | reflexivity].
Defined.



(* ===================================================================== *)
(** * Further properties: portfolio returns and the value path *)
(* ===================================================================== *)

Lemma same_labels_length (l1 l2 : list label) :
  NoDup l1 -> NoDup l2 -> same_labels l1 l2 -> length l1 = length l2.
Proof.
  intros H1 H2 Hsame. apply Permutation_length.
  apply NoDup_Permutation; assumption.
Qed.

Lemma keys_length {V : Type} (d : list (label * V)) :
  length (keys d) = length d.
Proof. apply length_map. Qed.

Lemma sum_skipna_all_nan (row : list value) (w : vector) :
  Forall (fun c => c = None) row -> sum_skipna (map2 vmul row w) = 0.
Proof.
  intros Hrow. revert w. induction Hrow as [|c row Hc Hrow IH]; intros [|x w];
    simpl; try reflexivity.
  subst c. simpl. apply IH.
Qed.

(** The weights read by label, in the order of the columns. *)
Lemma weights_by_column (weights : dict) (cols : list label) :
  (forall c, In c cols -> In c (keys weights)) ->
  map (fun c => cell_at c (Series_of_dict weights)) cols
  = numbers (map (fun c => dict_get c weights) cols).
Proof.
  intros Hin. unfold numbers. rewrite map_map. apply map_ext_in.
  intros c Hc. apply cell_at_Series_of_dict, Hin, Hc.
Qed.

(** On an accepted weight vector [calculate_portfolio_returns] returns one
    number per date: the sum over the assets of the cell times the weight
    of the asset's label, the cells without a value being left out, so that
    a date on which no asset has a return is reported as 0. *)
Theorem portfolio_returns_weighted_sum (asset_returns : DataFrame)
  (weights : dict) :
  valid_weights weights (columns asset_returns) ->
  NoDup (columns asset_returns) ->
  NoDup (keys weights) ->
  exists rs : list R,
    calculate_portfolio_returns asset_returns weights = Ok (numbers rs) /\
    length rs = length (rows asset_returns) /\
    forall t row,
      nth_error (rows asset_returns) t = Some row ->
      nth_error rs t
      = Some (sum_skipna
                (map2 vmul row
                      (numbers (map (fun c => dict_get c weights)
                                    (columns asset_returns))))) /\
      (Forall (fun c => c = None) row -> nth_error rs t = Some 0).
Proof.
  intros Hvalid Hcols Hkeys.
  pose proof (validate_weights_ok _ _ Hvalid) as Hval.
  destruct Hvalid as [Hsame _].
  set (w := numbers (map (fun c => dict_get c weights)
                         (columns asset_returns))).
  exists (map (fun row => sum_skipna (map2 vmul row w)) (rows asset_returns)).
  assert (Hnth : forall t row,
             nth_error (rows asset_returns) t = Some row ->
             nth_error (map (fun row => sum_skipna (map2 vmul row w))
                            (rows asset_returns)) t
             = Some (sum_skipna (map2 vmul row w))).
  { intros t row Hrow. rewrite nth_error_map, Hrow. reflexivity. }
  split; [|split].
  - unfold calculate_portfolio_returns. rewrite Hval. cbn [bind].
    rewrite <- (same_labels_length _ _ Hkeys Hcols Hsame), keys_length.
    rewrite Nat.eqb_refl.
    rewrite weights_by_column by (intros c Hc; apply Hsame, Hc).
    fold w. f_equal. symmetry.
    exact (map_map (fun row => sum_skipna (map2 vmul row w)) Some
                   (rows asset_returns)).
  - apply length_map.
  - intros t row Hrow. split; [apply Hnth, Hrow|].
    intros Hnan. rewrite (Hnth t row Hrow).
    rewrite sum_skipna_all_nan by exact Hnan. reflexivity.
Qed.

Lemma portfolio_returns_weighted_sum_witness :
  exists rs : list R,
    calculate_portfolio_returns
      (mkDataFrame ["A"%string; "B"%string]
                   [[None; None]; [Some 0.02; Some (-0.01)]])
      [("B"%string, 0.5); ("A"%string, 0.5)]
    = Ok (numbers rs) /\
    nth_error rs 0 = Some 0.
Proof.
  destruct (portfolio_returns_weighted_sum
              (mkDataFrame ["A"%string; "B"%string]
                           [[None; None]; [Some 0.02; Some (-0.01)]])
              [("B"%string, 0.5); ("A"%string, 0.5)])
    as [rs [Hrs [_ Hcells]]].
  - split; [|split].
    + intros a. simpl. tauto.
    + unfold weight_sum_ok, sumR. simpl. unfold Rabs.
      destruct (Rcase_abs _); lra.
    + intros [x [[E|[E|[]]] Hx]]; simpl in E; lra.
  - constructor; [intros [E|[]]; discriminate|].
    constructor; [intros []|constructor].
  - constructor; [intros [E|[]]; discriminate|].
    constructor; [intros []|constructor].
  - exists rs. split; [exact Hrs|].
    apply (proj2 (Hcells 0%nat [None; None] eq_refl)).
    repeat constructor.
Defined.

Lemma vadd_one_numbers (rs : list R) :
  map (vadd (Some 1)) (numbers rs) = numbers (map (Rplus 1) rs).
Proof. unfold numbers. rewrite !map_map. reflexivity. Qed.

Lemma cumprod_from_numbers (l : list R) (p : R) :
  cumprod_from p (numbers l) = numbers (cumprodR p l).
Proof.
  revert p. induction l as [|x l IH]; intros p; simpl; [reflexivity|].
  rewrite IH. reflexivity.
Qed.

Lemma prod_skipna_numbers (l : list R) : prod_skipna (numbers l) = prodR l.
Proof.
  induction l as [|x l IH]; simpl; [reflexivity|]. rewrite IH. reflexivity.
Qed.

Lemma cumprodR_length (l : list R) (p : R) :
  length (cumprodR p l) = length l.
Proof. revert p. induction l as [|x l IH]; intros p; simpl; auto. Qed.

Lemma cumprodR_nth (l : list R) :
  forall (p : R) (t : nat) (v : R),
    nth_error (cumprodR p l) t = Some v ->
    v = p * prodR (firstn (S t) l).
Proof.
  induction l as [|x l IH]; intros p t v H.
  - destruct t; discriminate.
  - destruct t as [|t]; simpl in H.
    + inversion H. simpl. lra.
    + rewrite (IH _ _ _ H).
      change (firstn (S (S t)) (x :: l)) with (x :: firstn (S t) l).
      simpl. lra.
Qed.

Lemma cumprodR_last (l : list R) :
  forall p : R, l <> [] -> last (cumprodR p l) 0 = p * prodR l.
Proof.
  induction l as [|x l IH]; intros p Hne; [contradiction|].
  destruct l as [|y l].
  - simpl. lra.
  - change (cumprodR p (x :: y :: l))
      with (p * x :: cumprodR (p * x) (y :: l)).
    change (last (p * x :: cumprodR (p * x) (y :: l)) 0)
      with (last (cumprodR (p * x) (y :: l)) 0).
    rewrite IH by discriminate.
    change (prodR (x :: y :: l)) with (x * prodR (y :: l)). lra.
Qed.

(** The value path is the compounded return: its entry at a date is one
    plus [calculate_portfolio_annual_return] of the returns up to that date,
    and its last entry is one plus the return of the whole series. *)
Theorem portfolio_value_compounds (rs : list R) :
  exists vs : list R,
    calculate_portfolio_value_series (numbers rs) = Ok (numbers vs) /\
    length vs = length rs /\
    (forall t v,
        nth_error vs t = Some v ->
        calculate_portfolio_annual_return (numbers (firstn (S t) rs))
        = Ok (v - 1)) /\
    (rs <> [] ->
     calculate_portfolio_annual_return (numbers rs) = Ok (last vs 0 - 1)).
Proof.
  exists (cumprodR 1 (map (Rplus 1) rs)).
  split; [|split; [|split]].
  - unfold calculate_portfolio_value_series, cumprod.
    rewrite vadd_one_numbers, cumprod_from_numbers. reflexivity.
  - rewrite cumprodR_length. apply length_map.
  - intros t v Hv. unfold calculate_portfolio_annual_return.
    rewrite vadd_one_numbers, prod_skipna_numbers.
    rewrite (cumprodR_nth _ _ _ _ Hv), firstn_map. f_equal. lra.
  - intros Hne. unfold calculate_portfolio_annual_return.
    rewrite vadd_one_numbers, prod_skipna_numbers.
    rewrite cumprodR_last by (destruct rs; [contradiction | discriminate]).
    f_equal. lra.
Qed.

Lemma portfolio_value_compounds_witness :
  exists vs : list R,
    calculate_portfolio_value_series (numbers [0.1; -0.1]) = Ok (numbers vs) /\
    calculate_portfolio_annual_return (numbers [0.1; -0.1])
    = Ok (last vs 0 - 1).
Proof.
  destruct (portfolio_value_compounds [0.1; -0.1])
    as [vs [Hvs [_ [_ Hlast]]]].
  exists vs. split; [exact Hvs|]. apply Hlast. discriminate.
Defined.

(* ===================================================================== *)
(** * Further properties: metrics/drawdown.py *)
(* ===================================================================== *)

(** The run of [calculate_drawdown] on positive numbers. *)
Lemma calculate_drawdown_numbers (vs : list R) :
  Forall (fun v => 0 < v) vs ->
  calculate_drawdown (numbers vs)
  = Ok (numbers (drawdownR vs), min_skipna (numbers (drawdownR vs))).
Proof.
  intros Hpos. destruct vs as [|v0 l]; [reflexivity|].
  assert (Hv0 : 0 < v0) by (inversion Hpos; assumption).
  unfold calculate_drawdown, drawdownR. rewrite cummax_numbers.
  rewrite drawdown_cells by exact Hv0. reflexivity.
Qed.

Lemma In_map2 {A B C : Type} (f : A -> B -> C) (l1 : list A) (l2 : list B)
  (c : C) :
  In c (map2 f l1 l2) ->
  exists t a b,
    nth_error l1 t = Some a /\ nth_error l2 t = Some b /\ c = f a b.
Proof.
  revert l2. induction l1 as [|x l1 IH]; intros [|y l2] Hin; simpl in Hin;
    try contradiction.
  destruct Hin as [E|Hin].
  - exists 0%nat, x, y. repeat split. symmetry. exact E.
  - destruct (IH l2 Hin) as [t [a [b [Ha [Hb Hc]]]]].
    exists (S t), a, b. repeat split; assumption.
Qed.

(** Every entry of the drawdown of a positive series is a ratio
    [(v - M) / M] of a value of the series and a running peak
    [M >= v > 0]. *)
Lemma drawdownR_entry (vs : list R) (d : R) :
  Forall (fun v => 0 < v) vs -> In d (drawdownR vs) ->
  exists v M, 0 < v /\ v <= M /\ d = (v - M) / M.
Proof.
  intros Hpos Hin. destruct vs as [|v0 l]; [contradiction|].
  unfold drawdownR in Hin. apply In_map2 in Hin.
  destruct Hin as [t [v [M [Hv [HM Hd]]]]].
  destruct (cummaxR_nth _ _ _ _ HM) as [_ [_ Hall]].
  rewrite Forall_forall in Hpos, Hall.
  exists v, M. split; [|split].
  - apply Hpos. apply nth_error_In in Hv. exact Hv.
  - apply Hall. apply nth_error_In_firstn, Hv.
  - exact Hd.
Qed.

Lemma drawdown_range (v M : R) :
  0 < v -> v <= M -> -1 < (v - M) / M <= 0.
Proof.
  intros Hv HM. assert (HM0 : 0 < M) by lra.
  pose proof (Rinv_0_lt_compat M HM0) as Hi.
  assert (E : (v - M) / M = v * / M - 1) by (field; lra).
  rewrite E. split.
  - assert (0 < v * / M) by (apply Rmult_lt_0_compat; assumption). lra.
  - assert (v * / M <= M * / M).
    { apply Rmult_le_compat_r; lra. }
    rewrite Rinv_r in H by lra. lra.
Qed.

Lemma min_skipna_from_member (l : list value) :
  forall (m : option R) (d : R),
    min_skipna_from m l = Some d -> m = Some d \/ In (Some d) l \/
    (exists y, m = Some y /\ d = y).
Proof.
  induction l as [|c l IH]; intros m d H; simpl in H.
  - left. exact H.
  - destruct c as [x|].
    + destruct (IH _ _ H) as [E|[Hin|[y [E Hy]]]].
      * inversion E as [E']. destruct m as [y|].
        -- destruct (Rmin_cases y x) as [Ey|Ex].
           ++ left. rewrite Ey. reflexivity.
           ++ right. left. left. rewrite Ex. reflexivity.
        -- right. left. left. reflexivity.
      * right. left. right. exact Hin.
      * inversion E as [E']. subst d. destruct m as [y'|].
        -- destruct (Rmin_cases y' x) as [Ey|Ex].
           ++ left. rewrite <- E', Ey. reflexivity.
           ++ right. left. left. rewrite <- E', Ex. reflexivity.
        -- right. left. left. rewrite E'. reflexivity.
    + destruct (IH _ _ H) as [E|[Hin|[y [E Hy]]]].
      * left. exact E.
      * right. left. right. exact Hin.
      * left. rewrite E, Hy. reflexivity.
Qed.

Lemma min_skipna_member (l : list value) (d : R) :
  min_skipna l = Some d -> In (Some d) l.
Proof.
  intros H. destruct (min_skipna_from_member l None d H)
    as [E|[Hin|[y [E _]]]]; try discriminate. exact Hin.
Qed.

(** On a strictly positive series the drawdown never falls below -1 and
    never exceeds 0, and so does the max drawdown; the first entry is 0. *)
Theorem drawdown_bounds (vs : list R) (dd : TimeSeries) (mdd : value) :
  Forall (fun v => 0 < v) vs ->
  calculate_drawdown (numbers vs) = Ok (dd, mdd) ->
  (forall d, In (Some d) dd -> -1 <= d <= 0) /\
  (forall m, mdd = Some m -> -1 <= m <= 0) /\
  (vs <> [] -> nth_error dd 0 = Some (Some 0)).
Proof.
  intros Hpos Hrun. rewrite calculate_drawdown_numbers in Hrun by exact Hpos.
  inversion Hrun as [[Hdd Hmdd]]. clear Hrun.
  assert (Hin : forall d, In (Some d) (numbers (drawdownR vs)) ->
                          -1 <= d <= 0).
  { intros d Hd. unfold numbers in Hd. apply in_map_iff in Hd.
    destruct Hd as [d' [E Hd]]. inversion E; subst d'.
    destruct (drawdownR_entry vs d Hpos Hd) as [v [M [Hv [HM Ed]]]].
    rewrite Ed. pose proof (drawdown_range v M Hv HM). lra. }
  split; [exact Hin|]. split.
  - intros m Hm. apply Hin, min_skipna_member, Hm.
  - intros Hne. destruct vs as [|v0 l]; [contradiction|].
    assert (Hv0 : 0 < v0) by (inversion Hpos; assumption).
    simpl. do 2 f_equal. rewrite (Rmax_left v0 v0) by lra.
    unfold Rdiv. replace (v0 - v0) with 0 by lra. apply Rmult_0_l.
Qed.

Lemma drawdown_bounds_witness :
  exists dd mdd,
    calculate_drawdown (numbers [100; 110; 99]) = Ok (dd, mdd) /\
    nth_error dd 0 = Some (Some 0) /\
    forall d, In (Some d) dd -> -1 <= d <= 0.
Proof.
  assert (Hpos : Forall (fun v => 0 < v) [100; 110; 99]).
  { repeat constructor; lra. }
  eexists. eexists. split; [apply calculate_drawdown_numbers, Hpos|].
  destruct (drawdown_bounds [100; 110; 99] _ _ Hpos
              (calculate_drawdown_numbers _ Hpos)) as [Hin [_ Hfirst]].
  split; [apply Hfirst; discriminate | exact Hin].
Defined.

Lemma cummaxR_sorted (l : list R) :
  forall m, Sorted Rle (m :: l) -> cummaxR m l = l.
Proof.
  induction l as [|x l IH]; intros m Hs; simpl; [reflexivity|].
  inversion Hs as [|a t Ht Hhd]; subst.
  inversion Hhd as [|b t' Hmx]; subst.
  rewrite (Rmax_right m x) by exact Hmx. f_equal. apply IH, Ht.
Qed.

Lemma map2_diag {A C : Type} (f : A -> A -> C) (l : list A) :
  map2 f l l = map (fun a => f a a) l.
Proof.
  induction l as [|a l IH]; simpl; [reflexivity|]. rewrite IH. reflexivity.
Qed.

Lemma min_skipna_zeros {A : Type} (l : list A) :
  min_skipna_from (Some 0) (numbers (map (fun _ => 0) l)) = Some 0.
Proof.
  induction l as [|a l IH]; simpl; [reflexivity|].
  rewrite (Rmin_left 0 0) by lra. exact IH.
Qed.

(** A positive series that never falls has no drawdown: every entry of the
    drawdown series is 0 and so is the max drawdown. *)
Theorem drawdown_of_rising_series (vs : list R) :
  Forall (fun v => 0 < v) vs ->
  Sorted Rle vs ->
  vs <> [] ->
  calculate_drawdown (numbers vs)
  = Ok (numbers (map (fun _ => 0) vs), Some 0).
Proof.
  intros Hpos Hsorted Hne.
  rewrite calculate_drawdown_numbers by exact Hpos.
  destruct vs as [|v0 l]; [contradiction|].
  assert (Hdd : drawdownR (v0 :: l) = map (fun _ => 0) (v0 :: l)).
  { unfold drawdownR.
    assert (Hmax : cummaxR v0 (v0 :: l) = v0 :: l).
    { simpl. rewrite (Rmax_left v0 v0) by lra. f_equal.
      apply cummaxR_sorted, Hsorted. }
    rewrite Hmax, map2_diag. apply map_ext_in. intros v Hv.
    rewrite Forall_forall in Hpos. pose proof (Hpos v Hv).
    unfold Rdiv. replace (v - v) with 0 by lra. apply Rmult_0_l. }
  rewrite Hdd. do 2 f_equal. apply (min_skipna_zeros l).
Qed.

Lemma drawdown_of_rising_series_witness :
  calculate_drawdown (numbers [100; 100; 121])
  = Ok (numbers [0; 0; 0], Some 0).
Proof.
  apply (drawdown_of_rising_series [100; 100; 121]).
  - repeat constructor; lra.
  - repeat constructor; lra.
  - discriminate.
Defined.

(* ===================================================================== *)
(** * Further properties: risk_models/stress_engine.py *)
(* ===================================================================== *)

Lemma list_eqb_refl (l : list label) : list_eqb l l = true.
Proof.
  induction l as [|a l IH]; simpl; [reflexivity|].
  rewrite String.eqb_refl. exact IH.
Qed.

Lemma align_index_same (l : list label) : align_index l l = l.
Proof. unfold align_index. rewrite list_eqb_refl. reflexivity. Qed.

Lemma keys_map_index {V : Type} (g : label -> V) (ks : list label) :
  keys (map (fun b => (b, g b)) ks) = ks.
Proof. unfold keys. rewrite map_map. apply map_id. Qed.

Lemma values_map_index {V : Type} (g : label -> V) (ks : list label) :
  values (map (fun b => (b, g b)) ks) = map g ks.
Proof. unfold values. rewrite map_map. reflexivity. Qed.

Lemma sumR_indicator_absent (f : label -> R) (a : label) (s : R)
  (ks : list label) :
  ~ In a ks ->
  sumR (map (fun b => f b * (if String.eqb b a then s else 0)) ks) = 0.
Proof.
  induction ks as [|k ks IH]; intros Hnot; simpl; [reflexivity|].
  destruct (String.eqb k a) eqn:E.
  - apply String.eqb_eq in E. subst. exfalso. apply Hnot. left. reflexivity.
  - rewrite IH by (intros H; apply Hnot; right; exact H). lra.
Qed.

Lemma sumR_indicator (f : label -> R) (a : label) (s : R) (ks : list label) :
  NoDup ks -> In a ks ->
  sumR (map (fun b => f b * (if String.eqb b a then s else 0)) ks) = f a * s.
Proof.
  induction 1 as [|k ks Hk Hnd IH]; intros Hin; [contradiction|].
  simpl. destruct (String.eqb k a) eqn:E.
  - apply String.eqb_eq in E. subst k.
    rewrite sumR_indicator_absent by exact Hk. lra.
  - destruct Hin as [Hka|Hin].
    + subst. rewrite String.eqb_refl in E. discriminate.
    + rewrite IH by exact Hin. lra.
Qed.

Lemma dict_get_entry (d : dict) (kv : label * R) :
  NoDup (keys d) -> In kv d -> dict_get (fst kv) d = snd kv.
Proof.
  induction d as [|[k x] d IH]; intros Hnd Hin; [contradiction|].
  inversion Hnd as [|k' ks Hk Hnd' E]; subst.
  unfold dict_get. simpl. destruct Hin as [E|Hin].
  - subst kv. simpl. rewrite String.eqb_refl. reflexivity.
  - destruct (String.eqb (fst kv) k) eqn:Ek.
    + apply String.eqb_eq in Ek. exfalso. apply Hk. rewrite <- Ek.
      apply in_map, Hin.
    + apply (IH Hnd' Hin).
Qed.

Lemma concentration_loss_of_asset (weights : dict) (s : R) (asset : label) :
  NoDup (keys weights) -> In asset (keys weights) ->
  sum_skipna
    (values
       (series_binop vmul (Series_of_dict weights)
          (map (fun b => (b, if String.eqb b asset then Some s else Some 0))
               (keys (Series_of_dict weights)))))
  = dict_get asset weights * s.
Proof.
  intros Hnd Hin. unfold series_binop.
  rewrite keys_map_index, !keys_Series_of_dict, align_index_same.
  rewrite values_map_index.
  rewrite <- (sumR_indicator (fun b => dict_get b weights) asset s
                             (keys weights) Hnd Hin).
  rewrite <- sum_skipna_numbers. unfold numbers. rewrite map_map.
  f_equal. apply map_ext_in. intros b Hb.
  rewrite cell_at_Series_of_dict by exact Hb.
  unfold cell_at.
  pose proof (lookup_map_index (V := value)
                (fun b => if String.eqb b asset then Some s else Some 0)
                (keys weights) b Hb) as HL.
  destruct (lookup b _) as [v|]; [|discriminate].
  inversion HL; subst v.
  destruct (String.eqb b asset); reflexivity.
Qed.

(** The concentration stress gives each asset its own weight times the
    shock; the losses add up to the shock times the sum of the weights,
    which for an accepted weight vector is the shock itself within
    [1e-6]. *)
Theorem concentration_loss_per_asset (weights : dict) (s : R) :
  NoDup (keys weights) ->
  -1 <= s <= 0 ->
  exists losses : dict,
    calculate_concentration_stress_loss weights (Some s) = Ok losses /\
    keys losses = keys weights /\
    (forall kv, In kv weights -> lookup (fst kv) losses = Some (snd kv * s)) /\
    sumR (values losses) = s * sumR (values weights) /\
    (weight_sum_ok weights -> Rabs (sumR (values losses) - s) <= 1e-6).
Proof.
  intros Hnd Hs.
  set (losses := map (fun a => (a, dict_get a weights * s)) (keys weights)).
  assert (Hsum : sumR (values losses) = s * sumR (values weights)).
  { unfold losses. rewrite values_map_index.
    rewrite <- (dict_get_keys weights Hnd).
    rewrite <- sumR_map_scale. f_equal. apply map_ext. intros a. lra. }
  exists losses. split; [|split; [|split; [|split]]].
  - unfold calculate_concentration_stress_loss.
    apply shock_guard_true in Hs. rewrite Hs. cbn [negb]. f_equal.
    unfold losses. rewrite keys_Series_of_dict at 1.
    apply map_ext_in. intros asset Hin. f_equal.
    apply concentration_loss_of_asset; assumption.
  - apply keys_map_index.
  - intros kv Hin. unfold losses.
    rewrite (lookup_map_index (fun a => dict_get a weights * s)).
    + rewrite (dict_get_entry _ _ Hnd Hin). reflexivity.
    + apply in_map, Hin.
  - exact Hsum.
  - intros Hok. rewrite Hsum. unfold weight_sum_ok in Hok.
    replace (s * sumR (values weights) - s)
      with (s * (sumR (values weights) - 1)) by lra.
    rewrite Rabs_mult.
    assert (Rabs s <= 1) by (unfold Rabs; destruct (Rcase_abs s); lra).
    pose proof (Rabs_pos (sumR (values weights) - 1)).
    pose proof (Rabs_pos s). nra.
Qed.

Lemma concentration_loss_per_asset_witness :
  exists losses : dict,
    calculate_concentration_stress_loss
      [("A"%string, 0.25); ("B"%string, 0.75)] (Some (-0.4)) = Ok losses /\
    lookup "B"%string losses = Some (0.75 * -0.4).
Proof.
  destruct (concentration_loss_per_asset
              [("A"%string, 0.25); ("B"%string, 0.75)] (-0.4))
    as [losses [Hrun [_ [Hcell _]]]].
  - constructor; [intros [E|[]]; discriminate|].
    constructor; [intros []|constructor].
  - lra.
  - exists losses. split; [exact Hrun|].
    apply (Hcell ("B"%string, 0.75)). right. left. reflexivity.
Defined.

Lemma dict_get_scale (d : dict) (s : R) (a : label) :
  dict_get a (map (fun kv => (fst kv, snd kv * s)) d) = dict_get a d * s.
Proof.
  unfold dict_get. rewrite (lookup_map_values (fun x => x * s)).
  destruct (lookup a d); simpl; [reflexivity | lra].
Qed.

Lemma stressed_series_of_dict (betas : dict) (s : R) :
  map (fun kv => (fst kv, vmul (snd kv) (Some s))) (Series_of_dict betas)
  = Series_of_dict (map (fun kv => (fst kv, snd kv * s)) betas).
Proof. unfold Series_of_dict. rewrite !map_map. reflexivity. Qed.

(** A market-wide shock costs the portfolio its beta times the shock:
    [calculate_portfolio_loss] on the output of
    [calculate_stressed_assets_returns] is the shock times the weighted sum
    of the asset betas. *)
Theorem market_shock_loss (weights betas : dict) (s : R) :
  -1 <= s <= 0 ->
  NoDup (keys weights) ->
  same_labels (keys betas) (keys weights) ->
  exists stressed : Series,
    calculate_stressed_assets_returns (Series_of_dict betas) (Some s)
    = Ok stressed /\
    calculate_portfolio_loss weights stressed
    = Ok (s * portfolio_beta weights betas).
Proof.
  intros Hs Hnd Hsame. eexists. split.
  - apply stressed_returns_inside, Hs.
  - unfold calculate_portfolio_loss. rewrite stressed_series_of_dict.
    rewrite naive_vol_weighted.
    + f_equal. unfold weighted_vol, portfolio_beta.
      rewrite <- sumR_map_scale. f_equal. apply map_ext. intros a.
      rewrite dict_get_scale. lra.
    + exact Hnd.
    + unfold keys. rewrite map_map. exact Hsame.
Qed.

Lemma market_shock_loss_witness :
  exists stressed : Series,
    calculate_stressed_assets_returns
      (Series_of_dict [("B"%string, 0.5); ("A"%string, 1.5)]) (Some (-0.2))
    = Ok stressed /\
    calculate_portfolio_loss [("A"%string, 0.4); ("B"%string, 0.6)] stressed
    = Ok (-0.2 * portfolio_beta [("A"%string, 0.4); ("B"%string, 0.6)]
                                [("B"%string, 0.5); ("A"%string, 1.5)]).
Proof.
  apply market_shock_loss.
  - lra.
  - constructor; [intros [E|[]]; discriminate|].
    constructor; [intros []|constructor].
  - intros a. simpl. tauto.
Defined.

Lemma lookup_absent {V : Type} (d : list (label * V)) (a : label) :
  ~ In a (keys d) -> lookup a d = None.
Proof.
  induction d as [|[b v] d IH]; intros Hnot; simpl; [reflexivity|].
  destruct (String.eqb a b) eqn:E.
  - apply String.eqb_eq in E. subst. exfalso. apply Hnot. left. reflexivity.
  - apply IH. intros H. apply Hnot. right. exact H.
Qed.

Lemma sum_skipna_no_value (l : list value) :
  (forall v, In v l -> v = None) -> sum_skipna l = 0.
Proof.
  induction l as [|c l IH]; intros H; simpl; [reflexivity|].
  rewrite (H c) by (left; reflexivity).
  apply IH. intros v Hv. apply H. right. exact Hv.
Qed.

(** [calculate_portfolio_loss] raises no error on labels that do not
    match: when no asset of the weight vector has a stressed return the
    loss it reports is 0. *)
Theorem portfolio_loss_without_common_asset (weights : dict)
  (asset_stress_returns : Series) :
  (forall a, In a (keys weights) -> ~ In a (keys asset_stress_returns)) ->
  calculate_portfolio_loss weights asset_stress_returns = Ok 0.
Proof.
  intros Hdisj. unfold calculate_portfolio_loss. f_equal.
  apply sum_skipna_no_value. intros v Hv.
  unfold series_binop, values in Hv. rewrite map_map in Hv.
  apply in_map_iff in Hv. destruct Hv as [a [Hv _]]. subst v. cbn [snd].
  destruct (in_dec string_dec a (keys weights)) as [Hin|Hnot].
  - unfold cell_at at 2. rewrite (lookup_absent _ _ (Hdisj a Hin)).
    destruct (cell_at a (Series_of_dict weights)); reflexivity.
  - unfold cell_at at 1. rewrite lookup_absent; [reflexivity|].
    rewrite keys_Series_of_dict. exact Hnot.
Qed.

Lemma portfolio_loss_without_common_asset_witness :
  calculate_portfolio_loss [("A"%string, 0.5); ("B"%string, 0.5)]
                           [("C"%string, Some (-0.3))]
  = Ok 0.
Proof.
  apply portfolio_loss_without_common_asset.
  intros a [E|[E|[]]] [H|[]]; subst; discriminate.
Defined.

(** A stressed correlation is a number in [-1, 1]; for a correlation in
    [-1, 1] it keeps the sign and is at least as large in size, a
    correlation of 1 stays 1, and every correlation of size 2/3 or more is
    pushed to the bound. *)
Theorem stressed_correlation_range (c : R) :
  vclip (-1) 1 (vmul (Some c) (Some 1.5)) = Some (stress_corr c) /\
  -1 <= stress_corr c <= 1 /\
  (0 <= c <= 1 -> c <= stress_corr c) /\
  (-1 <= c <= 0 -> stress_corr c <= c) /\
  (2 / 3 <= c -> stress_corr c = 1) /\
  (c <= - (2 / 3) -> stress_corr c = -1).
Proof.
  split; [reflexivity|].
  unfold stress_corr, Rmin, Rmax.
  destruct (Rle_dec (c * 1.5) (-1)); destruct (Rle_dec _ 1);
    repeat split; intros; lra.
Qed.

Lemma stressed_correlation_range_witness :
  0.5 <= stress_corr 0.5 /\ stress_corr 0.8 = 1.
Proof.
  split.
  - apply (proj1 (proj2 (proj2 (stressed_correlation_range 0.5)))). lra.
  - apply (proj1 (proj2 (proj2 (proj2 (proj2
             (stressed_correlation_range 0.8)))))). lra.
Defined.











(* ===================================================================== *)
(** * Further properties: metrics/volatility.py *)
(* ===================================================================== *)

Lemma count_valid_cells (xs : list value) :
  count_valid xs = length (valid_cells xs).
Proof.
  unfold count_valid. induction xs as [|[x|] xs IH]; simpl; auto.
Qed.

Lemma sum_skipna_valid_cells (xs : list value) :
  sum_skipna xs = sumR (valid_cells xs).
Proof.
  induction xs as [|[x|] xs IH]; simpl; auto. rewrite IH. reflexivity.
Qed.

Lemma sum_skipna_map_valid_cells (f : R -> R) (xs : list value) :
  sum_skipna (map (fun c => match c with
                            | Some x => Some (f x)
                            | None => None
                            end) xs)
  = sumR (map f (valid_cells xs)).
Proof.
  induction xs as [|[x|] xs IH]; simpl; auto. rewrite IH. reflexivity.
Qed.

Lemma complete_pairs_diag (xs : list value) :
  complete_pairs xs xs = map (fun x => (x, x)) (valid_cells xs).
Proof.
  induction xs as [|[x|] xs IH]; simpl; auto. rewrite IH. reflexivity.
Qed.

(** The covariance of a column with itself is its variance. *)
Lemma cov_pair_diag (xs : list value) : cov_pair xs xs = var_skipna xs.
Proof.
  unfold cov_pair, var_skipna.
  rewrite complete_pairs_diag, count_valid_cells, length_map.
  destruct (Nat.leb (length (valid_cells xs)) 1); [reflexivity|].
  rewrite !map_map. cbn [fst snd]. rewrite map_id.
  rewrite (sum_skipna_valid_cells xs).
  rewrite (sum_skipna_map_valid_cells
             (fun x => (x - sumR (valid_cells xs)
                            / INR (length (valid_cells xs)))
                       * (x - sumR (valid_cells xs)
                              / INR (length (valid_cells xs)))) xs).
  reflexivity.
Qed.

Lemma nth_map_seq {A : Type} (g : nat -> A) (n j : nat) (d : A) :
  (j < n)%nat -> nth j (map g (seq 0 n)) d = g j.
Proof.
  intros Hj.
  rewrite (nth_indep _ d (g 0%nat)) by (rewrite length_map, length_seq; exact Hj).
  rewrite (map_nth g). rewrite seq_nth by exact Hj. reflexivity.
Qed.

(** Whenever [calculate_daily_volatility] returns, it returns one value per
    column, labelled like the columns, and the value of a column is the
    square root of the entry of that column on the diagonal of the
    covariance matrix that the portfolio engine builds from the same
    table. *)
Theorem daily_volatility_is_covariance_diagonal (window : nat)
  (log_returns : DataFrame) (vols : Series) :
  calculate_daily_volatility window log_returns = Some vols ->
  (window <= length (rows log_returns))%nat /\
  keys vols = columns log_returns /\
  forall j,
    (j < length (columns log_returns))%nat ->
    nth j (values vols) None
    = vsqrt (nth j (nth j (df_cov log_returns) []) None).
Proof.
  unfold calculate_daily_volatility.
  destruct (Nat.ltb_spec (length (rows log_returns)) window) as [|Hlen];
    [discriminate|].
  intros H. inversion H; subst vols. clear H.
  split; [exact Hlen|]. split.
  - unfold df_std, keys. rewrite map_map. cbn [fst].
    rewrite (map_nth_seq (fun a => a) (columns log_returns) EmptyString).
    apply map_id.
  - intros j Hj. unfold df_std, values. rewrite map_map. cbn [snd].
    rewrite nth_map_seq by exact Hj.
    unfold df_cov. rewrite (nth_map_seq _ _ _ [] Hj).
    rewrite nth_map_seq by exact Hj. rewrite cov_pair_diag. reflexivity.
Qed.

Lemma daily_volatility_is_covariance_diagonal_witness :
  nth 0 (values (df_std moving_log_returns)) None
  = vsqrt (nth 0 (nth 0 (df_cov moving_log_returns) []) None).
Proof.
  apply (daily_volatility_is_covariance_diagonal
           2 moving_log_returns (df_std moving_log_returns) eq_refl).
  simpl. lia.
Defined.

(** For a portfolio of one asset held with weight 1 the volatility of the
    portfolio is the daily volatility of the asset, also where that is not
    a number. *)
Theorem single_asset_portfolio_volatility (window : nat) (a : label)
  (rs : list (list value)) (vols : Series) :
  calculate_daily_volatility window (mkDataFrame [a] rs) = Some vols ->
  exists v,
    vols = [(a, v)] /\
    calculate_daily_portfolio_volatility (mkDataFrame [a] rs) [(a, 1)]
    = Ok v.
Proof.
  unfold calculate_daily_volatility.
  destruct (Nat.ltb _ window); [discriminate|].
  intros H. inversion H; subst vols. clear H.
  eexists. split; [reflexivity|].
  unfold calculate_daily_portfolio_volatility.
  rewrite validate_weights_ok.
  - unfold df_cov. cbn [columns length seq map bind].
    rewrite cov_pair_diag.
    destruct (var_skipna (df_column (mkDataFrame [a] rs) 0)) as [x|];
      [|reflexivity].
    simpl. replace (1 * (x * 1 + 0) + 0) with x by lra. reflexivity.
  - split; [|split].
    + intros b. reflexivity.
    + unfold weight_sum_ok, sumR. simpl. unfold Rabs.
      destruct (Rcase_abs _); lra.
    + intros [x [[E|[]] Hx]]. simpl in E. lra.
Qed.

Lemma single_asset_portfolio_volatility_witness :
  exists v,
    df_std moving_log_returns = [("A"%string, v)] /\
    calculate_daily_portfolio_volatility moving_log_returns [("A"%string, 1)]
    = Ok v.
Proof.
  apply (single_asset_portfolio_volatility
           3 "A"%string [[None]; [Some 1]; [Some (-1)]]).
  reflexivity.
Defined.

(* ===================================================================== *)
(** * Further properties: metrics/beta.py *)
(* ===================================================================== *)

Lemma flat_map_map_singleton {A B C : Type} (F : B -> list C) (h : A -> B)
  (G : A -> C) (l : list A) :
  (forall x, In x l -> F (h x) = [G x]) ->
  flat_map F (map h l) = map G l.
Proof.
  induction l as [|x l IH]; intros H; simpl; [reflexivity|].
  rewrite (H x) by (left; reflexivity). simpl. f_equal.
  apply IH. intros y Hy. apply H. right. exact Hy.
Qed.

Lemma filter_all {A : Type} (f : A -> bool) (l : list A) :
  (forall x, In x l -> f x = true) -> filter f l = l.
Proof.
  induction l as [|x l IH]; intros H; simpl; [reflexivity|].
  rewrite (H x) by (left; reflexivity). f_equal.
  apply IH. intros y Hy. apply H. right. exact Hy.
Qed.

Lemma lookup_date_entry (f : nat * R -> list value) (l : list (nat * R))
  (dm : nat * R) :
  NoDup (map fst l) -> In dm l ->
  lookup_date (fst dm) (map (fun e => (fst e, f e)) l) = Some (f dm).
Proof.
  induction l as [|e l IH]; intros Hnd Hin; [contradiction|].
  inversion Hnd as [|d ds Hd Hnd' E]; subst. simpl.
  destruct Hin as [E|Hin].
  - subst e. rewrite Nat.eqb_refl. reflexivity.
  - destruct (Nat.eqb_spec (fst dm) (fst e)) as [Ed|_].
    + exfalso. apply Hd. rewrite <- Ed. apply in_map, Hin.
    + apply IH; assumption.
Qed.

(** The aligned frame of an asset and a market observed on the same
    dates. *)
Lemma aligned_same_dates (a mk : label) (g : nat * R -> R)
  (l : list (nat * R)) :
  NoDup (map fst l) ->
  dropna (concat_inner
            (mkDatedFrame [a] (map (fun e => (fst e, [Some (g e)])) l))
            (mkDatedFrame [mk] (map (fun e => (fst e, [Some (snd e)])) l)))
  = mkDatedFrame [a; mk]
                 (map (fun e => (fst e, [Some (g e); Some (snd e)])) l).
Proof.
  intros Hnd. unfold dropna, concat_inner. cbn [d_columns d_rows app].
  f_equal.
  rewrite (flat_map_map_singleton _ _
             (fun e => (fst e, [Some (g e); Some (snd e)]))).
  - apply filter_all. intros row Hrow. apply in_map_iff in Hrow.
    destruct Hrow as [e [E _]]. subst row. reflexivity.
  - intros e He. cbn [fst snd d_rows].
    pose proof (lookup_date_entry (fun e => [Some (snd e)]) l e Hnd He) as H.
    cbn beta in H. unfold value in *. rewrite H. reflexivity.
Qed.

Lemma valid_cells_numbers (l : list R) : valid_cells (numbers l) = l.
Proof.
  induction l as [|x l IH]; simpl; [reflexivity|]. rewrite IH. reflexivity.
Qed.

Lemma complete_pairs_numbers (xs ys : list R) :
  complete_pairs (numbers xs) (numbers ys) = combine xs ys.
Proof.
  revert ys. induction xs as [|x xs IH]; intros [|y ys]; simpl;
    try reflexivity.
  rewrite IH. reflexivity.
Qed.

Lemma combine_map_l {A B : Type} (f : A -> B) (l : list A) :
  combine (map f l) l = map (fun x => (f x, x)) l.
Proof.
  induction l as [|x l IH]; simpl; [reflexivity|]. rewrite IH. reflexivity.
Qed.

Lemma var_skipna_numbers (ms : list R) :
  var_skipna (numbers ms)
  = if Nat.leb (length ms) 1 then None
    else Some (sumR (map (fun x => (x - sumR ms / INR (length ms))
                                   * (x - sumR ms / INR (length ms))) ms)
               / (INR (length ms) - 1)).
Proof.
  unfold var_skipna.
  rewrite count_valid_cells, valid_cells_numbers.
  destruct (Nat.leb (length ms) 1); [reflexivity|].
  rewrite (sum_skipna_valid_cells (numbers ms)).
  rewrite (sum_skipna_map_valid_cells
             (fun x => (x - sumR (valid_cells (numbers ms)) / INR (length ms))
                       * (x - sumR (valid_cells (numbers ms))
                              / INR (length ms))) (numbers ms)).
  rewrite valid_cells_numbers. reflexivity.
Qed.

(** The covariance of [g] times a series with the series is [k] times its
    variance. *)
Lemma cov_pair_proportional (k : R) (ms : list R) :
  cov_pair (numbers (map (Rmult k) ms)) (numbers ms)
  = vmul (Some k) (var_skipna (numbers ms)).
Proof.
  rewrite var_skipna_numbers. unfold cov_pair.
  rewrite complete_pairs_numbers, combine_map_l, length_map.
  destruct (Nat.leb (length ms) 1); [reflexivity|].
  rewrite !map_map. cbn [fst snd]. rewrite (map_id ms).
  assert (Hk : sumR (map (fun x => k * x) ms) = k * sumR ms).
  { pose proof (sumR_map_scale k (fun x => x) ms) as H.
    rewrite (map_id ms) in H. exact H. }
  rewrite Hk. simpl. f_equal.
  unfold Rdiv. rewrite <- Rmult_assoc. f_equal.
  rewrite <- sumR_map_scale. f_equal. apply map_ext. intros x. ring.
Qed.

(** An asset whose return is [k] times the market return on every common
    date has beta [k], provided the market returns have a non-zero
    variance. *)
Theorem beta_of_proportional_returns (a mk : label) (k : R)
  (l : list (nat * R)) (V : R) :
  NoDup (map fst l) ->
  var_skipna (numbers (map snd l)) = Some V ->
  V <> 0 ->
  calculate_beta
    (mkDatedFrame [a] (map (fun e => (fst e, [Some (k * snd e)])) l))
    (mkDatedFrame [mk] (map (fun e => (fst e, [Some (snd e)])) l))
  = Some [(a, Some k)].
Proof.
  intros Hnd HV Hnz. unfold calculate_beta.
  rewrite (aligned_same_dates a mk (fun e => k * snd e) l Hnd).
  cbn [d_columns length seq map nth].
  unfold dated_column. cbn [d_rows]. rewrite !map_map. cbn [snd nth].
  change (map (fun x : nat * R => Some (snd x)) l)
    with (map (fun x : nat * R => Some (snd x)) l).
  assert (Hm : map (fun x : nat * R => Some (snd x)) l
               = numbers (map snd l)).
  { unfold numbers. rewrite map_map. reflexivity. }
  assert (Ha : map (fun x : nat * R => Some (k * snd x)) l
               = numbers (map (Rmult k) (map snd l))).
  { unfold numbers. rewrite !map_map. reflexivity. }
  rewrite Hm, Ha, cov_pair_proportional, HV. simpl.
  destruct (Req_dec_T V 0); [contradiction|].
  do 4 f_equal. field. exact Hnz.
Qed.

Lemma beta_of_proportional_returns_witness :
  calculate_beta
    (mkDatedFrame ["A"%string]
       (map (fun e => (fst e, [Some (2 * snd e)])) [(1%nat, 1); (2%nat, -1)]))
    (mkDatedFrame ["M"%string]
       (map (fun e => (fst e, [Some (snd e)])) [(1%nat, 1); (2%nat, -1)]))
  = Some [("A"%string, Some 2)].
Proof.
  apply (beta_of_proportional_returns
           "A"%string "M"%string 2 [(1%nat, 1); (2%nat, -1)] 2).
  - constructor; [intros [E|[]]; discriminate|].
    constructor; [intros []|constructor].
  - rewrite var_skipna_numbers. simpl. f_equal. field.
  - lra.
Defined.

Lemma count_valid_le_length (xs : list value) :
  (count_valid xs <= length xs)%nat.
Proof.
  unfold count_valid. apply filter_length_le.
Qed.

Lemma var_skipna_short (xs : list value) :
  (length xs <= 1)%nat -> var_skipna xs = None.
Proof.
  intros H. unfold var_skipna.
  pose proof (count_valid_le_length xs) as Hc.
  destruct (Nat.leb_spec (count_valid xs) 1) as [_|Hgt]; [reflexivity|lia].
Qed.

Lemma vdiv_None_r (a : value) : vdiv a None = None.
Proof. destruct a; reflexivity. Qed.

(** With fewer than two dates on which every column of both frames holds a
    number, the function does not fail: it returns one beta per asset
    column, each of them NaN. *)
Theorem beta_needs_two_common_dates (stock_returns market_returns : DatedFrame)
  (k : nat) :
  NoDup (d_columns stock_returns) ->
  NoDup (map fst (d_rows stock_returns)) ->
  NoDup (map fst (d_rows market_returns)) ->
  length (d_columns stock_returns ++ d_columns market_returns) = S k ->
  (length (d_rows (dropna (concat_inner stock_returns market_returns))) <= 1)%nat ->
  exists betas,
    calculate_beta stock_returns market_returns = Some betas /\
    length betas = k /\
    Forall (fun kv => snd kv = None) betas.
Proof.
  intros _ _ _ Hc Hr. unfold calculate_beta.
  set (aligned := dropna (concat_inner stock_returns market_returns)) in *.
  assert (Hcols : d_columns aligned
                  = d_columns stock_returns ++ d_columns market_returns)
    by reflexivity.
  rewrite Hcols, Hc. eexists. split; [reflexivity|]. split.
  - rewrite length_map, length_seq. reflexivity.
  - apply Forall_forall. intros kv Hkv. apply in_map_iff in Hkv.
    destruct Hkv as [j [E _]]. subst kv. cbn [snd].
    rewrite (var_skipna_short (dated_column aligned k)).
    + apply vdiv_None_r.
    + unfold dated_column. rewrite length_map. exact Hr.
Qed.

Lemma beta_needs_two_common_dates_witness :
  exists betas,
    calculate_beta
      (mkDatedFrame ["A"%string] [(1%nat, [Some 1]); (2%nat, [Some 2])])
      (mkDatedFrame ["M"%string] [(2%nat, [Some 3]); (3%nat, [Some 4])])
    = Some betas /\
    length betas = 1%nat /\
    Forall (fun kv => snd kv = None) betas.
Proof.
  apply (beta_needs_two_common_dates
           (mkDatedFrame ["A"%string] [(1%nat, [Some 1]); (2%nat, [Some 2])])
           (mkDatedFrame ["M"%string] [(2%nat, [Some 3]); (3%nat, [Some 4])])
           1).
  - repeat constructor; simpl; tauto.
  - repeat constructor; simpl; intuition discriminate.
  - repeat constructor; simpl; intuition discriminate.
  - reflexivity.
  - simpl. lia.
Defined.

Lemma row_complete_app (r r' : list value) :
  row_complete (r ++ r') = row_complete r && row_complete r'.
Proof. unfold row_complete. apply forallb_app. Qed.

(** Only the asset rows count whose date occurs in the market frame and
    which hold a number in every column: dropping all other rows
    beforehand does not change any beta. *)
Theorem beta_uses_complete_common_rows (cols : list label)
  (rs : list (nat * list value)) (market_returns : DatedFrame) :
  NoDup cols ->
  NoDup (map fst rs) ->
  NoDup (map fst (d_rows market_returns)) ->
  calculate_beta (mkDatedFrame cols rs) market_returns
  = calculate_beta
      (mkDatedFrame cols
         (filter (fun row =>
                    match lookup_date (fst row) (d_rows market_returns) with
                    | Some _ => row_complete (snd row)
                    | None => false
                    end) rs))
      market_returns.
Proof.
  intros _ _ _.
  assert (H : dropna (concat_inner (mkDatedFrame cols rs) market_returns)
              = dropna (concat_inner
                          (mkDatedFrame cols
                             (filter (fun row =>
                                match lookup_date (fst row)
                                        (d_rows market_returns) with
                                | Some _ => row_complete (snd row)
                                | None => false
                                end) rs))
                          market_returns)).
  { unfold dropna, concat_inner. cbn [d_columns d_rows]. f_equal.
    induction rs as [|row rs IH]; [reflexivity|].
    cbn [flat_map filter].
    destruct (lookup_date (fst row) (d_rows market_returns)) as [rr|] eqn:E.
    - destruct (row_complete (snd row)) eqn:Ec.
      + cbn [flat_map]. rewrite E. cbn [app filter fst snd].
        rewrite row_complete_app, Ec. cbn [andb].
        destruct (row_complete rr); [f_equal|]; exact IH.
      + cbn [app filter fst snd]. rewrite row_complete_app, Ec.
        cbn [andb]. exact IH.
    - cbn [app]. exact IH. }
  unfold calculate_beta. rewrite H. reflexivity.
Qed.

Lemma beta_uses_complete_common_rows_witness :
  calculate_beta
    (mkDatedFrame ["A"%string]
       [(1%nat, [Some 1]); (2%nat, [None]); (3%nat, [Some 2]);
        (4%nat, [Some 4])])
    (mkDatedFrame ["M"%string]
       [(1%nat, [Some 1]); (2%nat, [Some 5]); (4%nat, [Some 3])])
  = calculate_beta
      (mkDatedFrame ["A"%string]
         (filter (fun row =>
                    match lookup_date (fst row)
                            [(1%nat, [Some 1]); (2%nat, [Some 5]);
                             (4%nat, [Some 3])] with
                    | Some _ => row_complete (snd row)
                    | None => false
                    end)
            [(1%nat, [Some 1]); (2%nat, [None]); (3%nat, [Some 2]);
             (4%nat, [Some 4])]))
      (mkDatedFrame ["M"%string]
         [(1%nat, [Some 1]); (2%nat, [Some 5]); (4%nat, [Some 3])]).
Proof.
  apply (beta_uses_complete_common_rows
           ["A"%string]
           [(1%nat, [Some 1]); (2%nat, [None]); (3%nat, [Some 2]);
            (4%nat, [Some 4])]
           (mkDatedFrame ["M"%string]
              [(1%nat, [Some 1]); (2%nat, [Some 5]); (4%nat, [Some 3])])).
  - repeat constructor; simpl; tauto.
  - repeat constructor; simpl; intuition discriminate.
  - repeat constructor; simpl; intuition discriminate.
Defined.

(* ===================================================================== *)
(** * Further properties: prices to returns to the portfolio return *)
(* ===================================================================== *)





(* ===================================================================== *)
(** * Further properties: the drawdown of the portfolio value *)
(* ===================================================================== *)

Lemma cumprodR_pos (l : list R) :
  forall p, 0 < p -> Forall (fun x => 0 < x) l ->
            Forall (fun v => 0 < v) (cumprodR p l).
Proof.
  induction l as [|x l IH]; intros p Hp H; simpl; [constructor|].
  inversion H as [|y ys Hx Hl]; subst.
  assert (Hpx : 0 < p * x) by (apply Rmult_lt_0_compat; assumption).
  constructor; [exact Hpx | apply IH; assumption].
Qed.

(** As long as no daily return of the portfolio is a loss of 100% or more,
    the value path holds no negative value and its drawdown series and max
    drawdown do not fall below -1 and do not exceed 0. *)
Theorem portfolio_drawdown_bounds (rs : list R) :
  Forall (fun r => -1 < r) rs ->
  exists (vs : list R) (dd : TimeSeries) (mdd : value),
    calculate_portfolio_value_series (numbers rs) = Ok (numbers vs) /\
    calculate_drawdown (numbers vs) = Ok (dd, mdd) /\
    Forall (fun v => 0 <= v) vs /\
    (forall d, In (Some d) dd -> -1 <= d <= 0) /\
    (forall m, mdd = Some m -> -1 <= m <= 0).
Proof.
  intros Hrs.
  assert (Hpos : Forall (fun v => 0 < v) (cumprodR 1 (map (Rplus 1) rs))).
  { apply cumprodR_pos; [lra|]. apply Forall_forall. intros x Hx.
    apply in_map_iff in Hx. destruct Hx as [r [E Hr]]. subst x.
    rewrite Forall_forall in Hrs. specialize (Hrs r Hr). lra. }
  exists (cumprodR 1 (map (Rplus 1) rs)).
  exists (numbers (drawdownR (cumprodR 1 (map (Rplus 1) rs)))).
  exists (min_skipna (numbers (drawdownR (cumprodR 1 (map (Rplus 1) rs))))).
  assert (Hin : forall d,
             In (Some d) (numbers (drawdownR (cumprodR 1 (map (Rplus 1) rs))))
             -> -1 <= d <= 0).
  { intros d Hd. unfold numbers in Hd. apply in_map_iff in Hd.
    destruct Hd as [d' [E Hd]]. inversion E; subst d'.
    destruct (drawdownR_entry _ d Hpos Hd) as [v [M [Hv [HM Ed]]]].
    rewrite Ed. pose proof (drawdown_range v M Hv HM). lra. }
  split; [|split; [|split; [|split]]].
  - unfold calculate_portfolio_value_series, cumprod.
    rewrite vadd_one_numbers, cumprod_from_numbers. reflexivity.
  - apply calculate_drawdown_numbers, Hpos.
  - apply (Forall_impl _ (fun v (H : 0 < v) => Rlt_le 0 v H) Hpos).
  - exact Hin.
  - intros m Hm. apply Hin, min_skipna_member, Hm.
Qed.

Lemma portfolio_drawdown_bounds_witness :
  exists (vs : list R) (dd : TimeSeries) (mdd : value),
    calculate_portfolio_value_series (numbers [0.1; -0.5; 0.2])
    = Ok (numbers vs) /\
    calculate_drawdown (numbers vs) = Ok (dd, mdd) /\
    Forall (fun v => 0 <= v) vs /\
    (forall d, In (Some d) dd -> -1 <= d <= 0) /\
    (forall m, mdd = Some m -> -1 <= m <= 0).
Proof.
  apply (portfolio_drawdown_bounds [0.1; -0.5; 0.2]).
  repeat constructor; lra.
Defined.

(* ===================================================================== *)
(** * Further properties: the Sharpe ratio of the measured volatility *)
(* ===================================================================== *)

(** Fed with the annual volatility that [calculate_annual_volatility] makes
    of daily volatilities none of which is a number at or below 0,
    [calculate_sharpe] does not raise, and the ratio of an asset is its mean
    daily return over its daily volatility, times the square root of the
    trading-day count. *)
Theorem sharpe_from_daily_volatility (trading_days : R)
  (daily_returns : DataFrame) (daily_vol : Series) :
  0 < trading_days ->
  (forall x, In (Some x) (values daily_vol) -> 0 < x) ->
  exists s,
    calculate_sharpe trading_days daily_returns
      (calculate_annual_volatility trading_days daily_vol) = Ok s /\
    forall (j : nat) (a : label) (m x : R),
      NoDup (columns daily_returns) ->
      nth_error (columns daily_returns) j = Some a ->
      mean_skipna (df_column daily_returns j) = Some m ->
      lookup a daily_vol = Some (Some x) ->
      lookup a s = Some (Some (m / x * sqrt trading_days)).
Proof.
  intros HT Hvol.
  assert (Hs : 0 < sqrt trading_days) by (apply sqrt_lt_R0, HT).
  unfold calculate_sharpe, calculate_annual_volatility.
  destruct (existsb (fun v => vleb v (Some 0))
              (values (map (fun kv => (fst kv,
                                       vmul (snd kv)
                                            (Some (sqrt trading_days))))
                           daily_vol))) eqn:E.
  - exfalso. apply nonpositive_existsb in E. destruct E as [y [Hin Hy]].
    unfold values in Hin. rewrite map_map in Hin. cbn [snd] in Hin.
    apply in_map_iff in Hin. destruct Hin as [kv [Ekv Hkv]].
    destruct (snd kv) as [x|] eqn:Ex; [|discriminate].
    simpl in Ekv. inversion Ekv; subst y.
    assert (Hx : 0 < x).
    { apply Hvol. rewrite <- Ex. apply in_map, Hkv. }
    pose proof (Rmult_lt_0_compat _ _ Hx Hs). lra.
  - eexists. split; [reflexivity|].
    intros j a m x Hnd Ha Hm Hv.
    assert (Hx : 0 < x).
    { apply Hvol. apply (lookup_In_keys _ _ _ Hv). }
    rewrite series_binop_lookup.
    + unfold cell_at at 1 2.
      rewrite (lookup_map_values (fun x => vmul x (Some trading_days))).
      rewrite (lookup_map_values
                 (fun x => vmul x (Some (sqrt trading_days)))).
      rewrite (df_mean_lookup _ j a Hnd Ha), Hm, Hv. simpl.
      pose proof (Rmult_lt_0_compat _ _ Hx Hs) as Hxs.
      destruct (Req_dec_T (x * sqrt trading_days) 0) as [Hz|_]; [lra|].
      do 2 f_equal.
      rewrite <- (sqrt_sqrt trading_days) at 1 by lra.
      field. split; lra.
    + right. unfold keys. rewrite map_map. cbn [fst].
      apply (lookup_In_keys _ _ _ Hv).
Qed.

Lemma sharpe_from_daily_volatility_witness :
  exists s,
    calculate_sharpe 252
      (mkDataFrame ["A"%string] [[None]; [Some 0.01]; [Some 0.03]])
      (calculate_annual_volatility 252 [("A"%string, Some 0.02)]) = Ok s /\
    lookup "A"%string s
    = Some (Some ((0.01 + (0.03 + 0)) / INR 2 / 0.02 * sqrt 252)).
Proof.
  destruct (sharpe_from_daily_volatility 252
              (mkDataFrame ["A"%string] [[None]; [Some 0.01]; [Some 0.03]])
              [("A"%string, Some 0.02)]) as [s [Hs Hcell]].
  - lra.
  - intros x [E|[]]. inversion E. lra.
  - exists s. split; [exact Hs|].
    apply (Hcell 0%nat "A"%string).
    + constructor; [intros [] | constructor].
    + reflexivity.
    + reflexivity.
    + reflexivity.
Defined.

(* ===================================================================== *)
(** * portfolio_engine.py: diversification benefit *)
(* ===================================================================== *)
















